(** * Flight booking engine: inventory, ledger and the five booking tools

    A shallow embedding of the booking tools of [main.py]
    ([search_flights], [check_flight_availability], [book_flight],
    [cancel_booking], [view_booking]) over the module globals
    [FLIGHTS_DB], [BOOKINGS] and [BOOKING_COUNTER], followed by the
    properties of the engine.  The cut-down copy of three of the tools in
    [flight_booking_system_mock.py] is embedded in [Module Mock]; its
    message router [MockClaude.process_message] and the assistant loop
    [run_booking_assistant] of [main.py] follow, each with the external
    library or model it calls as a parameter.

    Conventions.
    - Python [int] is [Z] (unbounded, signed).
    - [FLIGHTS_DB] is a [dict] from route to a list of flight dicts.  The
      tools iterate over it in insertion order, so it is an association
      list; [BOOKINGS] is only accessed by key and is a [gmap].
    - The tools return [json.dumps] of a dict; the dict is modelled by the
      structured type [Response], and the shape of the error dict by
      [Error].
    - [datetime.now().isoformat()] is an input of the operation (the
      argument [now]).
    - Python [float] amounts are modelled by exact rationals and
      [round(_, 2)] by rounding to the nearest hundredth, ties to even; a
      rounded amount is represented by its number of hundredths (cents).
      Every fare the engine computes from an integer price is a multiple
      of half a unit, and 90% and 10% of such a fare are whole hundredths,
      so no rounding tie is ever met; binary64 arithmetic followed by
      [round(_, 2)] gives the same amounts as long as their magnitude stays
      below 10^12 (beyond that the model is an idealisation, and the
      int-to-float conversion of Python fails past 1.8e308). *)

From Stdlib Require Import ZArith QArith Qabs String Ascii Lia.
From stdpp Require Import gmap strings list fin_maps pretty.

Open Scope Z_scope.

(** ** Data model *)

(** A flight dict of [FLIGHTS_DB]:
    [{"id", "price", "departure", "arrival", "seats"}]. *)
Record Flight := mkFlight {
  fl_id : string;
  fl_price : Z;
  fl_departure : string;
  fl_arrival : string;
  fl_seats : Z
}.

(** [Literal["economy", "business", "first"]]. *)
Inductive CabinClass := economy | business | first.

(** The two values ever written to [booking["status"]]. *)
Inductive Status := CONFIRMED | CANCELLED.

(** The booking dict built by [book_flight]; [cancellation_date] is the
    key added by [cancel_booking].  [total_price] is in hundredths. *)
Record Booking := mkBooking {
  booking_id : string;
  flight_id : string;
  route : string;
  passengers : Z;
  cabin_class : CabinClass;
  passenger_name : string;
  passenger_email : string;
  total_price : Z;
  departure : string;
  arrival : string;
  status : Status;
  booking_date : string;
  cancellation_date : option string
}.

(** The module globals. *)
Record State := mkState {
  FLIGHTS_DB : list (string * list Flight);
  BOOKINGS : gmap string Booking;
  BOOKING_COUNTER : Z
}.

#[global] Instance Status_eq_dec : EqDecision Status.
Proof. solve_decision. Defined.

#[global] Instance CabinClass_eq_dec : EqDecision CabinClass.
Proof. solve_decision. Defined.

(** ** Responses *)

(** The error dicts.  Source messages, in order:
    "Origin and destination cannot be the same";
    "No flights available for route {origin} to {destination}";
    "Flight {flight_id} not found";
    "Passengers must be between 1 and 9";
    "Insufficient seats available" with keys [requested], [available];
    "Invalid email format";
    "Booking {booking_id} not found";
    "Email does not match booking records";
    "Booking already cancelled". *)
Inductive Error :=
| InvalidRoute
| RouteNotFound (origin destination : string)
| FlightNotFound (fid : string)
| InvalidPassengerCount
| InsufficientSeats (requested available : Z)
| InvalidEmail
| BookingNotFound (bid : string)
| EmailMismatch
| AlreadyCancelled.

(** Success dict of [search_flights]. *)
Record SearchResult := mkSearchResult {
  sr_route : string;
  sr_date : string;
  sr_flights : list Flight;
  sr_count : nat
}.

(** Success dict of [check_flight_availability]; [av_total_price] is the
    integer [price * passengers], or [None]. *)
Record Availability := mkAvailability {
  av_flight_id : string;
  av_route : string;
  passengers_requested : Z;
  seats_available : Z;
  can_book : bool;
  price_per_person : Z;
  av_total_price : option Z;
  av_departure : string;
  av_arrival : string
}.

(** Success dict of [cancel_booking]; the three amounts are in
    hundredths. *)
Record Cancellation := mkCancellation {
  cn_booking_id : string;
  refund_amount : Z;
  original_amount : Z;
  cancellation_fee : Z
}.

Inductive Response :=
| Failure (e : Error)
| Flights (r : SearchResult)
| Available (a : Availability)
| Booked (b : Booking)
| Refunded (c : Cancellation)
| Viewed (b : Booking).

(** ** Amounts *)

(** Nearest integer, ties to even. *)
Definition round_half_even (q : Q) : Z :=
  let d := Z.pos (Qden q) in
  let fl := Qnum q / d in
  match 2 * (Qnum q mod d) ?= d with
  | Lt => fl
  | Gt => fl + 1
  | Eq => if Z.even fl then fl else fl + 1
  end.

(** [round(x, 2)], as a number of hundredths. *)
Definition round2 (x : Q) : Z := round_half_even (x * 100)%Q.

(** The amount denoted by a number of hundredths. *)
Definition of_cents (c : Z) : Q := (c # 100)%Q.

(** [{"economy": 1.0, "business": 2.5, "first": 4.0}[cabin_class]]. *)
Definition multiplier (c : CabinClass) : Q :=
  match c with
  | economy => 1
  | business => 5 # 2
  | first => 4
  end%Q.

(** ** Inventory access *)

(** [c in s] for a one-character [c]. *)
Fixpoint contains (c : ascii) (s : string) : bool :=
  match s with
  | EmptyString => false
  | String a s' => if Ascii.eqb a c then true else contains c s'
  end.

(** [FLIGHTS_DB.get(route, [])]. *)
Fixpoint get_route (r : string) (db : list (string * list Flight)) : list Flight :=
  match db with
  | [] => []
  | (k, fls) :: db' => if String.eqb k r then fls else get_route r db'
  end.

(** The inner loop [for flight in flights: if flight["id"] == flight_id]. *)
Fixpoint find_in_route (fid : string) (fls : list Flight) : option Flight :=
  match fls with
  | [] => None
  | f :: fls' => if String.eqb (fl_id f) fid then Some f else find_in_route fid fls'
  end.

(** The nested loop of [check_flight_availability] and [book_flight]: the
    first flight with the given id, with its route key. *)
Fixpoint find_flight (fid : string) (db : list (string * list Flight))
  : option (string * Flight) :=
  match db with
  | [] => None
  | (r, fls) :: db' =>
      match find_in_route fid fls with
      | Some f => Some (r, f)
      | None => find_flight fid db'
      end
  end.

Definition set_seats (f : Flight) (n : Z) : Flight :=
  {| fl_id := fl_id f; fl_price := fl_price f; fl_departure := fl_departure f;
     fl_arrival := fl_arrival f; fl_seats := n |}.

(** [flight["seats"] -= passengers] on the flight object the loop of
    [book_flight] stopped at: the first one with the id. *)
Fixpoint take_in_route (fid : string) (n : Z) (fls : list Flight) : list Flight :=
  match fls with
  | [] => []
  | f :: fls' =>
      if String.eqb (fl_id f) fid then set_seats f (fl_seats f - n) :: fls'
      else f :: take_in_route fid n fls'
  end.

Fixpoint take_seats (fid : string) (n : Z) (db : list (string * list Flight))
  : list (string * list Flight) :=
  match db with
  | [] => []
  | (r, fls) :: db' =>
      match find_in_route fid fls with
      | Some _ => (r, take_in_route fid n fls) :: db'
      | None => (r, fls) :: take_seats fid n db'
      end
  end.

(** The loop of [cancel_booking], which has no [return] or [break]:
    [flight["seats"] += n] on every flight with the id. *)
Definition give_back (fid : string) (n : Z) (f : Flight) : Flight :=
  if String.eqb (fl_id f) fid then set_seats f (fl_seats f + n) else f.

Definition return_seats (fid : string) (n : Z) (db : list (string * list Flight))
  : list (string * list Flight) :=
  map (fun rf => (rf.1, map (give_back fid n) rf.2)) db.

(** ** The tools *)

(** [f"BK{BOOKING_COUNTER}"]. *)
Definition booking_id_of (counter : Z) : string := "BK" +:+ pretty counter.

Definition search_flights (s : State) (origin destination departure_date : string)
  : Response :=
  if String.eqb origin destination then Failure InvalidRoute
  else
    let flights := get_route (origin +:+ "-" +:+ destination) (FLIGHTS_DB s) in
    match flights with
    | [] => Failure (RouteNotFound origin destination)
    | _ =>
        Flights {| sr_route := origin +:+ " → " +:+ destination;
                   sr_date := departure_date;
                   sr_flights := flights;
                   sr_count := length flights |}
    end.

Definition check_flight_availability (s : State) (fid : string) (n : Z) : Response :=
  if (n <? 1) || (9 <? n) then Failure InvalidPassengerCount
  else
    match find_flight fid (FLIGHTS_DB s) with
    | Some (r, flight) =>
        let available := fl_seats flight in
        let is_available := n <=? available in
        Available {| av_flight_id := fid;
                     av_route := r;
                     passengers_requested := n;
                     seats_available := available;
                     can_book := is_available;
                     price_per_person := fl_price flight;
                     av_total_price :=
                       if is_available then Some (fl_price flight * n) else None;
                     av_departure := fl_departure flight;
                     av_arrival := fl_arrival flight |}
    | None => Failure (FlightNotFound fid)
    end.

(** The dict literal [booking = {...}] of [book_flight]; [amount] is
    [base_price * passengers * multiplier] before [round(_, 2)]. *)
Definition make_booking (bid fid r : string) (n : Z) (cabin : CabinClass)
    (name email : string) (amount : Q) (flight : Flight) (now : string) : Booking :=
  {| booking_id := bid;
     flight_id := fid;
     route := r;
     passengers := n;
     cabin_class := cabin;
     passenger_name := name;
     passenger_email := email;
     total_price := round2 amount;
     departure := fl_departure flight;
     arrival := fl_arrival flight;
     status := CONFIRMED;
     booking_date := now;
     cancellation_date := None |}.

Definition book_flight (s : State) (fid : string) (n : Z) (cabin : CabinClass)
    (name email now : string) : Response * State :=
  if negb (contains "@" email) || negb (contains "." email)
  then (Failure InvalidEmail, s)
  else
    match find_flight fid (FLIGHTS_DB s) with
    | Some (r, flight) =>
        if fl_seats flight <? n
        then (Failure (InsufficientSeats n (fl_seats flight)), s)
        else
          let base_price := fl_price flight in
          let total := (inject_Z (base_price * n) * multiplier cabin)%Q in
          let bid := booking_id_of (BOOKING_COUNTER s) in
          let booking := make_booking bid fid r n cabin name email total flight now in
          (Booked booking,
           {| FLIGHTS_DB := take_seats fid n (FLIGHTS_DB s);
              BOOKINGS := <[bid := booking]> (BOOKINGS s);
              BOOKING_COUNTER := BOOKING_COUNTER s + 1 |})
    | None => (Failure (FlightNotFound fid), s)
    end.

(** [booking["status"] = "CANCELLED"] and
    [booking["cancellation_date"] = now] on the stored dict. *)
Definition cancelled (b : Booking) (now : string) : Booking :=
  {| booking_id := booking_id b;
     flight_id := flight_id b;
     route := route b;
     passengers := passengers b;
     cabin_class := cabin_class b;
     passenger_name := passenger_name b;
     passenger_email := passenger_email b;
     total_price := total_price b;
     departure := departure b;
     arrival := arrival b;
     status := CANCELLED;
     booking_date := booking_date b;
     cancellation_date := Some now |}.

Definition cancel_booking (s : State) (bid email now : string) : Response * State :=
  match BOOKINGS s !! bid with
  | None => (Failure (BookingNotFound bid), s)
  | Some booking =>
      if negb (String.eqb (passenger_email booking) email)
      then (Failure EmailMismatch, s)
      else
        match status booking with
        | CANCELLED => (Failure AlreadyCancelled, s)
        | CONFIRMED =>
            let refund := (of_cents (total_price booking) * (9 # 10))%Q in
            (Refunded {| cn_booking_id := bid;
                         refund_amount := round2 refund;
                         original_amount := total_price booking;
                         cancellation_fee :=
                           round2 (of_cents (total_price booking) * (1 # 10))%Q |},
             {| FLIGHTS_DB :=
                  return_seats (flight_id booking) (passengers booking) (FLIGHTS_DB s);
                BOOKINGS := <[bid := cancelled booking now]> (BOOKINGS s);
                BOOKING_COUNTER := BOOKING_COUNTER s |})
        end
  end.

Definition view_booking (s : State) (bid : string) : Response :=
  match BOOKINGS s !! bid with
  | None => Failure (BookingNotFound bid)
  | Some b => Viewed b
  end.

(** ** Sequences of tool calls *)

Inductive Op :=
| Search (origin destination departure_date : string)
| CheckAvailability (fid : string) (n : Z)
| Book (fid : string) (n : Z) (cabin : CabinClass) (name email now : string)
| Cancel (bid email now : string)
| View (bid : string).

(** One tool call, as dispatched by [run_booking_assistant]. *)
Definition step (s : State) (op : Op) : Response * State :=
  match op with
  | Search o d date => (search_flights s o d date, s)
  | CheckAvailability fid n => (check_flight_availability s fid n, s)
  | Book fid n cabin name email now => book_flight s fid n cabin name email now
  | Cancel bid email now => cancel_booking s bid email now
  | View bid => (view_booking s bid, s)
  end.

(** The responses of a sequence of calls, in order, and the final state. *)
Fixpoint run (s : State) (ops : list Op) : list Response * State :=
  match ops with
  | [] => ([], s)
  | op :: ops' =>
      let '(r, s1) := step s op in
      let '(rs, s2) := run s1 ops' in
      (r :: rs, s2)
  end.

Definition exec (s : State) (ops : list Op) : State := (run s ops).2.

(** The seed of [main.py]. *)
Definition seed_flights : list (string * list Flight) :=
  [ ("NYC-LON", [ mkFlight "BA001" 850 "08:00" "20:00" 45;
                  mkFlight "AA102" 920 "14:30" "02:30" 12 ]);
    ("NYC-TYO", [ mkFlight "JL005" 1200 "13:00" "16:00+1" 23;
                  mkFlight "AA150" 1150 "18:45" "22:15+1" 8 ]);
    ("LAX-TYO", [ mkFlight "JL062" 980 "11:00" "15:30+1" 56;
                  mkFlight "NH175" 1050 "17:00" "21:00+1" 34 ]);
    ("LON-PAR", [ mkFlight "AF318" 180 "09:15" "11:45" 89;
                  mkFlight "BA304" 195 "16:00" "18:30" 67 ]) ].

Definition init (db : list (string * list Flight)) : State :=
  {| FLIGHTS_DB := db; BOOKINGS := ∅; BOOKING_COUNTER := 1000 |}.

Definition seed : State := init seed_flights.

(** ** The cut-down tools of [flight_booking_system_mock.py]

    The mock file has its own globals and its own copies of three of the
    tools, without the guards of [main.py]: [search_flights] does not
    compare origin and destination, [check_flight_availability] does not
    test the passenger count, [book_flight] does not test the email and
    does not store it.  [cabin_class] is a [str] there; a string outside
    the multiplier table raises [KeyError] before anything is written, and
    the three keys of the table are the type [CabinClass]. *)
Module Mock.

Record Booking := mkBooking {
  booking_id : string;
  flight_id : string;
  passengers : Z;
  cabin_class : CabinClass;
  passenger_name : string;
  total_price : Z;
  status : Status
}.

Record State := mkState {
  FLIGHTS_DB : list (string * list Flight);
  BOOKINGS : gmap string Booking;
  BOOKING_COUNTER : Z
}.

(** The error dicts: "No flights for route {origin} to {destination}",
    "Flight {flight_id} not found", "Insufficient seats". *)
Inductive Error :=
| RouteNotFound (origin destination : string)
| FlightNotFound (fid : string)
| InsufficientSeats.

Record Availability := mkAvailability {
  av_flight_id : string;
  av_route : string;
  passengers_requested : Z;
  seats_available : Z;
  can_book : bool;
  price_per_person : Z;
  av_total_price : option Z
}.

Inductive Response :=
| Failure (e : Error)
| Flights (r : SearchResult)
| Available (a : Availability)
| Booked (b : Booking).

Definition search_flights (s : State) (origin destination departure_date : string)
  : Response :=
  let flights := get_route (origin +:+ "-" +:+ destination) (FLIGHTS_DB s) in
  match flights with
  | [] => Failure (RouteNotFound origin destination)
  | _ =>
      Flights {| sr_route := origin +:+ " → " +:+ destination;
                 sr_date := departure_date;
                 sr_flights := flights;
                 sr_count := length flights |}
  end.

Definition check_flight_availability (s : State) (fid : string) (n : Z) : Response :=
  match find_flight fid (FLIGHTS_DB s) with
  | Some (r, flight) =>
      let available := fl_seats flight in
      let can := n <=? available in
      Available {| av_flight_id := fid;
                   av_route := r;
                   passengers_requested := n;
                   seats_available := available;
                   can_book := can;
                   price_per_person := fl_price flight;
                   av_total_price :=
                     if can then Some (fl_price flight * n) else None |}
  | None => Failure (FlightNotFound fid)
  end.

Definition book_flight (s : State) (fid : string) (n : Z) (cabin : CabinClass)
    (name email : string) : Response * State :=
  match find_flight fid (FLIGHTS_DB s) with
  | Some (r, flight) =>
      if fl_seats flight <? n then (Failure InsufficientSeats, s)
      else
        let base_price := fl_price flight in
        let total := (inject_Z (base_price * n) * multiplier cabin)%Q in
        let bid := booking_id_of (BOOKING_COUNTER s) in
        let booking :=
          {| booking_id := bid;
             flight_id := fid;
             passengers := n;
             cabin_class := cabin;
             passenger_name := name;
             total_price := round2 total;
             status := CONFIRMED |} in
        (Booked booking,
         {| FLIGHTS_DB := take_seats fid n (FLIGHTS_DB s);
            BOOKINGS := <[bid := booking]> (BOOKINGS s);
            BOOKING_COUNTER := BOOKING_COUNTER s + 1 |})
  | None => (Failure (FlightNotFound fid), s)
  end.

(** The seed of the mock file: three routes. *)
Definition seed_flights : list (string * list Flight) :=
  [ ("NYC-LON", [ mkFlight "BA001" 850 "08:00" "20:00" 45;
                  mkFlight "AA102" 920 "14:30" "02:30" 12 ]);
    ("NYC-TYO", [ mkFlight "JL005" 1200 "13:00" "16:00+1" 23;
                  mkFlight "AA150" 1150 "18:45" "22:15+1" 8 ]);
    ("LAX-TYO", [ mkFlight "JL062" 980 "11:00" "15:30+1" 56;
                  mkFlight "NH175" 1050 "17:00" "21:00+1" 34 ]) ].

Definition seed : State :=
  {| FLIGHTS_DB := seed_flights; BOOKINGS := ∅; BOOKING_COUNTER := 1000 |}.

End Mock.

(** ** Notions used by the properties *)

(** The email test of [book_flight], positively. *)
Definition valid_email (email : string) : bool :=
  contains "@" email && contains "." email.

(** The fare of [book_flight] in hundredths: the rounding is exact. *)
Definition fare_cents (m : Z) (c : CabinClass) : Z :=
  match c with
  | economy => 100 * m
  | business => 250 * m
  | first => 400 * m
  end.

Definition all_flights (db : list (string * list Flight)) : list Flight :=
  concat (map snd db).

Definition has_flight (fid : string) (db : list (string * list Flight)) : Prop :=
  ∃ f, f ∈ all_flights db ∧ fl_id f = fid.

Definition seats_of (db : list (string * list Flight)) (fid : string) : option Z :=
  (λ rf, fl_seats rf.2) <$> find_flight fid db.

Definition confirmed_weight (fid : string) (b : Booking) : Z :=
  match status b with
  | CONFIRMED => if String.eqb (flight_id b) fid then passengers b else 0
  | CANCELLED => 0
  end.

(** Sum of the passengers of the CONFIRMED bookings on flight [fid]. *)
Definition confirmed_on (fid : string) (m : gmap string Booking) : Z :=
  map_fold (λ _ b acc, confirmed_weight fid b + acc) 0 m.

(** Every key of the ledger was allocated from an earlier counter value. *)
Definition ledger_fresh (s : State) : Prop :=
  ∀ k b, BOOKINGS s !! k = Some b →
    ∃ n, k = booking_id_of n ∧ n < BOOKING_COUNTER s.

(** Seat conservation against the initial inventory [db0]. *)
Definition conserved (db0 : list (string * list Flight)) (s : State) : Prop :=
  ∀ fid, seats_of (FLIGHTS_DB s) fid =
         (λ c, c - confirmed_on fid (BOOKINGS s)) <$> seats_of db0 fid.

(** Every [book_flight] call of the sequence asks for a passenger count
    that is not negative. *)
Definition counts_nonneg (ops : list Op) : Prop :=
  Forall (λ op, match op with Book _ n _ _ _ _ => 0 <= n | _ => True end) ops.

Definition seats_nonneg (s : State) : Prop :=
  ∀ fid c, seats_of (FLIGHTS_DB s) fid = Some c → 0 <= c.

Definition passengers_nonneg (s : State) : Prop :=
  ∀ k b, BOOKINGS s !! k = Some b → 0 <= passengers b.

(** The booking ids handed out by a sequence of calls, oldest first. *)
Definition allocated (rs : list Response) : list string :=
  omap (λ r, match r with Booked b => Some (booking_id b) | _ => None end) rs.

(** An out-of-band replacement of the inventory (no tool does this); the
    ledger and the counter are kept. *)
Definition set_inventory (db : list (string * list Flight)) (s : State) : State :=
  {| FLIGHTS_DB := db; BOOKINGS := BOOKINGS s; BOOKING_COUNTER := BOOKING_COUNTER s |}.

(** An out-of-band fare change: [flight["price"] = p] on the flights with
    the given id. *)
Definition reprice (fid : string) (p : Z) (db : list (string * list Flight))
  : list (string * list Flight) :=
  map (λ rf, (rf.1,
              map (λ f, if String.eqb (fl_id f) fid
                        then {| fl_id := fl_id f; fl_price := p;
                                fl_departure := fl_departure f;
                                fl_arrival := fl_arrival f;
                                fl_seats := fl_seats f |}
                        else f) rf.2)) db.

(** ** Further notions: what a call keeps *)

(** The keys of a flight dict that no tool assigns to. *)
Definition fl_static (f : Flight) : string * Z * string * string :=
  (fl_id f, fl_price f, fl_departure f, fl_arrival f).

(** The inventory without its seat counts. *)
Definition shape (db : list (string * list Flight))
  : list (string * list (string * Z * string * string)) :=
  map (λ rf, (rf.1, map fl_static rf.2)) db.


(** The keys of a booking dict that [cancel_booking] does not assign. *)
Definition same_booking_data (b b' : Booking) : Prop :=
  booking_id b' = booking_id b ∧ flight_id b' = flight_id b ∧
  route b' = route b ∧ passengers b' = passengers b ∧
  cabin_class b' = cabin_class b ∧ passenger_name b' = passenger_name b ∧
  passenger_email b' = passenger_email b ∧ total_price b' = total_price b ∧
  departure b' = departure b ∧ arrival b' = arrival b ∧
  booking_date b' = booking_date b.



(** The two figures the script of [main.py] prints at its end:
    [len(BOOKINGS)] and
    [sum(1 for b in BOOKINGS.values() if b['status'] == 'CONFIRMED')]. *)
Definition total_bookings (s : State) : nat := size (BOOKINGS s).

Definition active_bookings (s : State) : nat :=
  map_fold (λ _ b acc, match status b with CONFIRMED => S acc | CANCELLED => acc end)
           0%nat (BOOKINGS s).

(** The number of successful cancellations among the responses. *)
Definition is_refund (r : Response) : bool :=
  match r with Refunded _ => true | _ => false end.

Definition refunds (rs : list Response) : nat :=
  length (filter (λ r, is_refund r = true) rs).

(** ** Reading a state of [main.py] as a state of the mock

    The mock's booking dict has seven of the keys of the booking dict of
    [main.py], its availability dict has no departure and arrival, and its
    insufficient-seats error has no counts. *)
Definition erase_booking (b : Booking) : Mock.Booking :=
  {| Mock.booking_id := booking_id b;
     Mock.flight_id := flight_id b;
     Mock.passengers := passengers b;
     Mock.cabin_class := cabin_class b;
     Mock.passenger_name := passenger_name b;
     Mock.total_price := total_price b;
     Mock.status := status b |}.

Definition erase_state (s : State) : Mock.State :=
  {| Mock.FLIGHTS_DB := FLIGHTS_DB s;
     Mock.BOOKINGS := erase_booking <$> BOOKINGS s;
     Mock.BOOKING_COUNTER := BOOKING_COUNTER s |}.

Definition erase_availability (a : Availability) : Mock.Availability :=
  {| Mock.av_flight_id := av_flight_id a;
     Mock.av_route := av_route a;
     Mock.passengers_requested := passengers_requested a;
     Mock.seats_available := seats_available a;
     Mock.can_book := can_book a;
     Mock.price_per_person := price_per_person a;
     Mock.av_total_price := av_total_price a |}.

(** The responses of [main.py] that the mock can give; the others have no
    counterpart. *)
Definition erase_response (r : Response) : option Mock.Response :=
  match r with
  | Failure (RouteNotFound o d) => Some (Mock.Failure (Mock.RouteNotFound o d))
  | Failure (FlightNotFound fid) => Some (Mock.Failure (Mock.FlightNotFound fid))
  | Failure (InsufficientSeats _ _) => Some (Mock.Failure Mock.InsufficientSeats)
  | Failure _ => None
  | Flights r => Some (Mock.Flights r)
  | Available a => Some (Mock.Available (erase_availability a))
  | Booked b => Some (Mock.Booked (erase_booking b))
  | Refunded _ | Viewed _ => None
  end.

(** ** The message router of the mock: [MockClaude.process_message]

    Messages are ASCII text: [str.lower] and [str.upper] act on the
    letters A-Z and a-z.  The two searches with the name and the email
    regular expression, followed by [strip()], are calls into [re]; they
    are parameters of the router.  [conversation_memory] is never read or
    written after [__init__] and is left out. *)

Definition is_upper (c : ascii) : bool :=
  (65 <=? nat_of_ascii c)%nat && (nat_of_ascii c <=? 90)%nat.

Definition is_lower (c : ascii) : bool :=
  (97 <=? nat_of_ascii c)%nat && (nat_of_ascii c <=? 122)%nat.

Definition is_digit (c : ascii) : bool :=
  (48 <=? nat_of_ascii c)%nat && (nat_of_ascii c <=? 57)%nat.

Definition lower_char (c : ascii) : ascii :=
  if is_upper c then ascii_of_nat (nat_of_ascii c + 32) else c.

Definition upper_char (c : ascii) : ascii :=
  if is_lower c then ascii_of_nat (nat_of_ascii c - 32) else c.

Fixpoint lower (s : string) : string :=
  match s with
  | EmptyString => EmptyString
  | String c s' => String (lower_char c) (lower s')
  end.

Fixpoint upper (s : string) : string :=
  match s with
  | EmptyString => EmptyString
  | String c s' => String (upper_char c) (upper s')
  end.

(** [needle in hay] for strings. *)
Fixpoint occurs_in (needle hay : string) : bool :=
  String.prefix needle hay ||
  match hay with
  | EmptyString => false
  | String _ hay' => occurs_in needle hay'
  end.

(** A match of [[A-Z]{2}\d{3}] at the start of the string. *)
Definition code_at (s : string) : option string :=
  match s with
  | String a (String b (String c (String d (String e _)))) =>
      if is_upper a && is_upper b && is_digit c && is_digit d && is_digit e
      then Some (String a (String b (String c (String d (String e EmptyString)))))
      else None
  | _ => None
  end.

(** [re.search(r'([A-Z]{2}\d{3})', s)]: group 1 of the leftmost match. *)
Fixpoint find_code (s : string) : option string :=
  match code_at s with
  | Some code => Some code
  | None =>
      match s with
      | EmptyString => None
      | String _ s' => find_code s'
      end
  end.

(** The two attributes of a [MockClaude] that [process_message] uses. *)
Record MockClaude := mkMockClaude {
  last_flight_searched : option string;
  last_route : option string
}.

(** [MockClaude()]. *)
Definition new_mock_claude : MockClaude :=
  {| last_flight_searched := None; last_route := None |}.

(** The dict [process_message] returns: a tool name with its arguments
    and the reasoning text, or no tool with a response. *)
Inductive Decision :=
| CallSearch (origin destination departure_date reasoning : string)
| CallCheck (fid : string) (n : Z) (reasoning : string)
| CallBook (fid : string) (n : Z) (cabin : CabinClass) (name email reasoning : string)
| NoTool (response reasoning : string).

(** [any(word in msg_lower for word in
    ["search", "find", "fly", "flight from", "show me"])]. *)
Definition search_words (msg_lower : string) : bool :=
  existsb (λ word, occurs_in word msg_lower)
          ["search"; "find"; "fly"; "flight from"; "show me"]%string.

(** The city pair of pattern 1, when one is recognised. *)
Definition city_pair (msg_lower : string) : option (string * string) :=
  if occurs_in "nyc to tokyo" msg_lower || occurs_in "new york to tokyo" msg_lower
  then Some ("NYC", "TYO")%string
  else if occurs_in "nyc to london" msg_lower
  then Some ("NYC", "LON")%string
  else if occurs_in "lax to tokyo" msg_lower || occurs_in "los angeles to tokyo" msg_lower
  then Some ("LAX", "TYO")%string
  else None.

(** The passenger count of pattern 2. *)
Definition check_count (msg_lower : string) : Z :=
  if occurs_in "for 3" msg_lower || occurs_in "3 people" msg_lower
     || occurs_in "3 passengers" msg_lower then 3
  else if occurs_in "for 2" msg_lower || occurs_in "2 people" msg_lower
          || occurs_in "2 passengers" msg_lower then 2
  else if occurs_in "for 1" msg_lower || occurs_in "1 person" msg_lower
          || occurs_in "1 passenger" msg_lower then 1
  else 2.

(** The passenger count of pattern 3. *)
Definition book_count (msg_lower : string) : Z :=
  if occurs_in "for 3" msg_lower || occurs_in "3 people" msg_lower then 3
  else if occurs_in "for 2" msg_lower || occurs_in "2 people" msg_lower then 2
  else 2.

Definition book_cabin (msg_lower : string) : CabinClass :=
  if occurs_in "business" msg_lower then business
  else if occurs_in "first class" msg_lower || occurs_in "first" msg_lower then first
  else economy.

(** [self.last_flight_searched or "JL005"]. *)
Definition last_or_default (last : option string) : string :=
  match last with
  | Some f => if String.eqb f "" then "JL005" else f
  | None => "JL005"
  end.

Definition no_tool : Decision :=
  NoTool "I'd be happy to help! You can ask me to search flights, check availability, book flights, or manage bookings."
         "General greeting or unclear request".

Section Router.

(** [name_match.group(1).strip() if name_match] and
    [email_match.group(1).strip() if email_match], on the message. *)
Variable name_of : string → option string.
Variable email_of : string → option string.

Definition process_message (self : MockClaude) (user_message : string)
  : Decision * MockClaude :=
  let msg_lower := lower user_message in
  if search_words msg_lower then
    match city_pair msg_lower with
    | Some (origin, destination) =>
        let date := if occurs_in "march" msg_lower then "2025-03-01" else "2025-02-15" in
        (CallSearch origin destination date
           ("User wants to search for flights from " +:+ origin +:+ " to " +:+ destination),
         {| last_flight_searched := last_flight_searched self;
            last_route := Some (origin +:+ "-" +:+ destination) |})
    | None => (no_tool, self)
    end
  else if occurs_in "check" msg_lower
          && (occurs_in "availability" msg_lower || occurs_in "seats" msg_lower
              || occurs_in "available" msg_lower) then
    let fid := match find_code (upper user_message) with
               | Some code => code
               | None => "JL005"
               end in
    let count := check_count msg_lower in
    (CallCheck fid count
       ("User wants to check if flight " +:+ fid +:+ " has " +:+ pretty count +:+ " seats"),
     {| last_flight_searched := Some fid; last_route := last_route self |})
  else if occurs_in "book" msg_lower then
    let fid := match find_code (upper user_message) with
               | Some code => code
               | None => last_or_default (last_flight_searched self)
               end in
    let count := book_count msg_lower in
    let cabin := book_cabin msg_lower in
    let name := default "John Doe" (name_of user_message) in
    let email := default "user@email.com" (email_of user_message) in
    (CallBook fid count cabin name email
       ("User wants to book flight " +:+ fid +:+ " for " +:+ pretty count +:+ " passengers"),
     self)
  else (no_tool, self).

End Router.

(** ** The assistant loop of [main.py]: [run_booking_assistant]

    [model_with_tools.invoke] is the external chat model: a parameter that
    maps the conversation so far to a reply.  A tool call of a reply is an
    [Op]: the tools are bound with [strict=True], so name and arguments
    are those of one of the five tools, and the timestamp of a booking or
    cancellation is the clock reading at the call.  The [print] calls are
    left out. *)

Inductive Message :=
| SystemMsg (content : string)
| UserMsg (content : string)
| AssistantMsg (content : string)
| ToolResult (tool_use_id : string) (result : Response).

Record ToolCall := mkToolCall {
  tc_id : string;
  tc_op : Op
}.

(** [response.content] and [response.tool_calls]. *)
Record Reply := mkReply {
  rp_content : string;
  rp_tool_calls : list ToolCall
}.

Definition system_prompt : string :=
  "You are a helpful flight booking assistant. You can:
1. Search for flights between cities
2. Check flight availability
3. Book flights for passengers
4. Cancel existing bookings
5. View booking details

Always confirm important details before booking. Be clear about prices and policies.
Use tools to help users with their booking needs.".

Definition apology : string :=
  "I apologize, but I need to end this conversation. Please start a new booking.".

(** [max_iterations = 10]. *)
Definition max_iterations : nat := 10.

(** The inner loop [for tool_call in response.tool_calls]: each call is
    executed and its result collected with the id of the call. *)
Fixpoint run_tools (s : State) (calls : list ToolCall) : list Message * State :=
  match calls with
  | [] => ([], s)
  | c :: cs =>
      let '(r, s1) := step s (tc_op c) in
      let '(ms, s2) := run_tools s1 cs in
      (ToolResult (tc_id c) r :: ms, s2)
  end.

Section Assistant.

Variable invoke : list Message → Reply.

(** The [while iteration < max_iterations] loop, with the iterations that
    are left. *)
Fixpoint assistant_loop (remaining : nat) (s : State) (history : list Message)
  : string * list Message * State :=
  match remaining with
  | O => (apology, history, s)
  | S k =>
      let response := invoke history in
      let history1 := history ++ [AssistantMsg (rp_content response)] in
      match rp_tool_calls response with
      | [] => (rp_content response, history1, s)
      | calls =>
          let '(tool_results, s1) := run_tools s calls in
          assistant_loop k s1 (history1 ++ tool_results)
      end
  end.

(** [conversation_history=None] is the empty list. *)
Definition run_booking_assistant (s : State) (user_message : string)
    (conversation_history : list Message) : string * list Message * State :=
  let history :=
    match conversation_history with
    | [] => [SystemMsg system_prompt]
    | _ => conversation_history
    end in
  assistant_loop max_iterations s (history ++ [UserMsg user_message]).

End Assistant.

(** The tool results of a stretch of conversation, the number of model
    replies in it, and the messages the loop itself never adds. *)
Definition results_of (ms : list Message) : list Response :=
  omap (λ m, match m with ToolResult _ r => Some r | _ => None end) ms.

Definition is_reply (m : Message) : bool :=
  match m with AssistantMsg _ => true | _ => false end.

Definition replies (ms : list Message) : nat :=
  length (filter (λ m, is_reply m = true) ms).

Definition from_loop (m : Message) : bool :=
  match m with AssistantMsg _ | ToolResult _ _ => true | _ => false end.

(** * Properties *)

(** ** Rounding *)


(** An integer is its own rounding. *)
Lemma round_half_even_whole (n : Z) (d : positive) :
  round_half_even ((n * Z.pos d) # d) = n.
Proof.
  unfold round_half_even; simpl.
  rewrite Z.mod_mul, Z.div_mul by lia.
  simpl. destruct d; reflexivity.
Qed.

Lemma round2_of_cents (c : Z) : round2 (of_cents c) = c.
Proof.
  unfold round2, of_cents, Qmult; simpl.
  apply (round_half_even_whole c 100).
Qed.

Lemma round2_fare (m : Z) (c : CabinClass) :
  round2 (inject_Z m * multiplier c) = fare_cents m c.
Proof.
  unfold round2, round_half_even, inject_Z, Qmult.
  destruct c; simpl Qnum; simpl Qden; cbn [fare_cents].
  - replace (m * 1 * 100) with ((100 * m) * 1) by lia.
    rewrite Z.mod_mul, Z.div_mul by lia. reflexivity.
  - replace (m * 5 * 100) with ((250 * m) * 2) by lia.
    rewrite Z.mod_mul, Z.div_mul by lia. reflexivity.
  - replace (m * 4 * 100) with ((400 * m) * 1) by lia.
    rewrite Z.mod_mul, Z.div_mul by lia. reflexivity.
Qed.







(** ** Inventory lookups *)

Lemma find_in_route_Some fid fls f :
  find_in_route fid fls = Some f → f ∈ fls ∧ fl_id f = fid.
Proof.
  induction fls as [|g fls IH]; simpl; [discriminate|].
  destruct (String.eqb_spec (fl_id g) fid) as [E|N].
  - intros [= <-]. split; [left | exact E].
  - intros H. destruct (IH H) as [Hin Hid]. split; [by right | exact Hid].
Qed.

Lemma find_in_route_None fid fls :
  find_in_route fid fls = None ↔ ∀ f, f ∈ fls → fl_id f ≠ fid.
Proof.
  induction fls as [|g fls IH]; simpl.
  - split; [intros _ f Hf; inversion Hf | done].
  - destruct (String.eqb_spec (fl_id g) fid) as [E|N].
    + split; [discriminate|]. intros H. exfalso. apply (H g); [left | exact E].
    + rewrite IH. split.
      * intros H f Hf. apply elem_of_cons in Hf as [->|Hf]; auto.
      * intros H f Hf. apply H. by right.
Qed.

Lemma find_flight_Some fid db r f :
  find_flight fid db = Some (r, f) →
  (∃ fls, (r, fls) ∈ db ∧ f ∈ fls) ∧ fl_id f = fid.
Proof.
  induction db as [|[r' fls] db IH]; simpl; [discriminate|].
  destruct (find_in_route fid fls) as [g|] eqn:E.
  - intros [= <- <-]. apply find_in_route_Some in E as [Hin Hid].
    split; [|exact Hid]. exists fls. split; [left | exact Hin].
  - intros H. destruct (IH H) as [(fls' & Hdb & Hin) Hid].
    split; [|exact Hid]. exists fls'. split; [by right | exact Hin].
Qed.

Lemma elem_of_all_flights f db :
  f ∈ all_flights db ↔ ∃ r fls, (r, fls) ∈ db ∧ f ∈ fls.
Proof.
  unfold all_flights. induction db as [|[r fls] db IH]; simpl.
  - split; [intros H; inversion H | intros (r & fls & H & _); inversion H].
  - rewrite elem_of_app, IH. split.
    + intros [Hf|(r' & fls' & Hin & Hf)].
      * exists r, fls. split; [left | exact Hf].
      * exists r', fls'. split; [by right | exact Hf].
    + intros (r' & fls' & Hin & Hf).
      apply elem_of_cons in Hin as [[= -> ->]|Hin]; [by left | right; eauto].
Qed.

Lemma find_flight_None fid db :
  find_flight fid db = None ↔ ¬ has_flight fid db.
Proof.
  unfold has_flight. induction db as [|[r fls] db IH]; simpl.
  - split; [|done]. intros _ (f & Hf & _). unfold all_flights in Hf. simpl in Hf. inversion Hf.
  - destruct (find_in_route fid fls) as [g|] eqn:E.
    + split; [discriminate|]. intros H. exfalso. apply H.
      apply find_in_route_Some in E as [Hin Hid]. exists g. split; [|exact Hid].
      apply elem_of_all_flights. exists r, fls. split; [left | exact Hin].
    + rewrite IH. rewrite find_in_route_None in E. split.
      * intros H (f & Hf & Hid). apply elem_of_all_flights in Hf as (r' & fls' & Hin & Hf).
        apply elem_of_cons in Hin as [[= -> ->]|Hin].
        -- by apply (E f).
        -- apply H. exists f. split; [|exact Hid]. apply elem_of_all_flights. by exists r', fls'.
      * intros H (f & Hf & Hid). apply H. exists f. split; [|exact Hid].
        apply elem_of_all_flights in Hf as (r' & fls' & Hin & Hf).
        apply elem_of_all_flights. exists r', fls'. split; [by right | exact Hf].
Qed.

Lemma find_in_route_take fid' fid n fls :
  find_in_route fid' (take_in_route fid n fls) =
  if String.eqb fid' fid
  then (λ f, set_seats f (fl_seats f - n)) <$> find_in_route fid fls
  else find_in_route fid' fls.
Proof.
  induction fls as [|g fls IH]; simpl.
  - by destruct (String.eqb fid' fid).
  - destruct (String.eqb_spec (fl_id g) fid) as [E|N]; simpl.
    + destruct (String.eqb_spec fid' fid) as [->|N'].
      * by rewrite (proj2 (String.eqb_eq _ _) E).
      * destruct (String.eqb_spec (fl_id g) fid'); [congruence | done].
    + rewrite IH. destruct (String.eqb_spec fid' fid) as [->|N'].
      * by rewrite (proj2 (String.eqb_neq _ _) N).
      * done.
Qed.

Lemma find_flight_take_seats fid' fid n db :
  find_flight fid' (take_seats fid n db) =
  if String.eqb fid' fid
  then (λ rf, (rf.1, set_seats rf.2 (fl_seats rf.2 - n))) <$> find_flight fid db
  else find_flight fid' db.
Proof.
  induction db as [|[r fls] db IH]; simpl.
  - by destruct (String.eqb fid' fid).
  - destruct (find_in_route fid fls) as [g|] eqn:E; simpl.
    + rewrite find_in_route_take, E. by destruct (String.eqb fid' fid).
    + rewrite IH. destruct (String.eqb_spec fid' fid) as [->|N'].
      * by rewrite E.
      * done.
Qed.

Lemma find_in_route_give_back fid' fid n fls :
  find_in_route fid' (map (give_back fid n) fls) =
  give_back fid n <$> find_in_route fid' fls.
Proof.
  induction fls as [|g fls IH]; simpl; [done|].
  assert (fl_id (give_back fid n g) = fl_id g) as ->
    by (unfold give_back; by destruct (String.eqb (fl_id g) fid)).
  by destruct (String.eqb (fl_id g) fid').
Qed.

Lemma find_flight_return_seats fid' fid n db :
  find_flight fid' (return_seats fid n db) =
  (λ rf, (rf.1, give_back fid n rf.2)) <$> find_flight fid' db.
Proof.
  induction db as [|[r fls] db IH]; simpl; [done|].
  rewrite find_in_route_give_back.
  destruct (find_in_route fid' fls); simpl; [done | exact IH].
Qed.

Lemma seats_of_take_seats fid' fid n db :
  seats_of (take_seats fid n db) fid' =
  (λ c, if String.eqb fid' fid then c - n else c) <$> seats_of db fid'.
Proof.
  unfold seats_of. rewrite find_flight_take_seats.
  destruct (String.eqb_spec fid' fid) as [->|N].
  - by destruct (find_flight fid db) as [[r f]|].
  - by destruct (find_flight fid' db) as [[r f]|].
Qed.

Lemma seats_of_return_seats fid' fid n db :
  seats_of (return_seats fid n db) fid' =
  (λ c, if String.eqb fid' fid then c + n else c) <$> seats_of db fid'.
Proof.
  unfold seats_of. rewrite find_flight_return_seats.
  destruct (find_flight fid' db) as [[r f]|] eqn:E; simpl; [|done].
  apply find_flight_Some in E as [_ Hid]. unfold give_back. rewrite Hid.
  by destruct (String.eqb fid' fid).
Qed.

(** ** Ledger sums *)

Lemma confirmed_on_empty fid : confirmed_on fid ∅ = 0.
Proof. unfold confirmed_on. apply map_fold_empty. Qed.

Lemma confirmed_on_insert_fresh fid k b (m : gmap string Booking) :
  m !! k = None →
  confirmed_on fid (<[k := b]> m) = confirmed_weight fid b + confirmed_on fid m.
Proof.
  intros Hk. unfold confirmed_on.
  rewrite map_fold_insert_L; [done | intros; lia | exact Hk].
Qed.

Lemma confirmed_on_delete fid k b (m : gmap string Booking) :
  m !! k = Some b →
  confirmed_on fid m = confirmed_weight fid b + confirmed_on fid (delete k m).
Proof.
  intros Hk. unfold confirmed_on.
  rewrite (map_fold_delete_L _ _ k b m); [done | intros; lia | exact Hk].
Qed.

Lemma confirmed_on_update fid k b b' (m : gmap string Booking) :
  m !! k = Some b →
  confirmed_on fid (<[k := b']> m) =
  confirmed_on fid m - confirmed_weight fid b + confirmed_weight fid b'.
Proof.
  intros Hk. rewrite <- insert_delete_eq.
  rewrite confirmed_on_insert_fresh by apply lookup_delete_eq.
  rewrite (confirmed_on_delete fid k b m Hk). lia.
Qed.

Lemma confirmed_on_nonneg fid (m : gmap string Booking) :
  (∀ k b, m !! k = Some b → 0 <= passengers b) → 0 <= confirmed_on fid m.
Proof.
  induction m as [|k b m Hk IH] using map_ind; intros Hall.
  - rewrite confirmed_on_empty. lia.
  - rewrite confirmed_on_insert_fresh by exact Hk.
    assert (0 <= passengers b) by (apply (Hall k); apply lookup_insert_eq).
    assert (0 <= confirmed_on fid m).
    { apply IH. intros k' b' Hk'. apply (Hall k').
      rewrite lookup_insert_ne; [exact Hk' | congruence]. }
    unfold confirmed_weight. destruct (status b), (String.eqb (flight_id b) fid); lia.
Qed.

(** ** Booking ids *)

Lemma booking_id_of_inj m n : booking_id_of m = booking_id_of n → m = n.
Proof.
  unfold booking_id_of. intros H.
  apply (inj pretty). by apply (inj (String.append "BK")) in H.
Qed.

Lemma ledger_fresh_next s :
  ledger_fresh s → BOOKINGS s !! booking_id_of (BOOKING_COUNTER s) = None.
Proof.
  intros Hf. destruct (BOOKINGS s !! _) as [b|] eqn:E; [|done].
  destruct (Hf _ _ E) as (n & Hn & Hlt). apply booking_id_of_inj in Hn. lia.
Qed.

Lemma ledger_fresh_init db : ledger_fresh (init db).
Proof. intros k b H. simpl in H. by rewrite lookup_empty in H. Qed.

(** ** One tool call *)

Lemma email_guard email :
  negb (contains "@" email) || negb (contains "." email) = negb (valid_email email).
Proof. unfold valid_email. by destruct (contains "@" email), (contains "." email). Qed.

Lemma book_flight_invalid_email s fid n cabin name email now :
  valid_email email = false →
  book_flight s fid n cabin name email now = (Failure InvalidEmail, s).
Proof. intros H. unfold book_flight. by rewrite email_guard, H. Qed.

Lemma book_flight_not_found s fid n cabin name email now :
  valid_email email = true →
  find_flight fid (FLIGHTS_DB s) = None →
  book_flight s fid n cabin name email now = (Failure (FlightNotFound fid), s).
Proof. intros H F. unfold book_flight. by rewrite email_guard, H, F. Qed.

Lemma book_flight_insufficient s fid n cabin name email now r flight :
  valid_email email = true →
  find_flight fid (FLIGHTS_DB s) = Some (r, flight) →
  fl_seats flight < n →
  book_flight s fid n cabin name email now =
  (Failure (InsufficientSeats n (fl_seats flight)), s).
Proof.
  intros H F L. unfold book_flight. rewrite email_guard, H, F. simpl.
  by rewrite (proj2 (Z.ltb_lt _ _) L).
Qed.

Lemma book_flight_booked s fid n cabin name email now r flight :
  valid_email email = true →
  find_flight fid (FLIGHTS_DB s) = Some (r, flight) →
  n <= fl_seats flight →
  book_flight s fid n cabin name email now =
  let b := make_booking (booking_id_of (BOOKING_COUNTER s)) fid r n cabin name email
             (inject_Z (fl_price flight * n) * multiplier cabin) flight now in
  (Booked b,
   {| FLIGHTS_DB := take_seats fid n (FLIGHTS_DB s);
      BOOKINGS := <[booking_id_of (BOOKING_COUNTER s) := b]> (BOOKINGS s);
      BOOKING_COUNTER := BOOKING_COUNTER s + 1 |}).
Proof.
  intros H F L. unfold book_flight. rewrite email_guard, H, F. simpl.
  by rewrite (proj2 (Z.ltb_ge _ _) L).
Qed.

(** The four outcomes of [book_flight], as a case analysis. *)
Ltac book_cases s fid n email :=
  let V := fresh "V" in let F := fresh "F" in let L := fresh "L" in
  let r := fresh "r" in let flight := fresh "flight" in
  destruct (valid_email email) eqn:V;
  [ destruct (find_flight fid (FLIGHTS_DB s)) as [[r flight]|] eqn:F;
    [ destruct (Z.lt_ge_cases (fl_seats flight) n) as [L|L];
      [ rewrite (book_flight_insufficient _ _ _ _ _ _ _ _ _ V F L)
      | rewrite (book_flight_booked _ _ _ _ _ _ _ _ _ V F L) ]
    | rewrite (book_flight_not_found _ _ _ _ _ _ _ V F) ]
  | rewrite (book_flight_invalid_email _ _ _ _ _ _ _ V) ].

Lemma cancel_booking_not_found s bid email now :
  BOOKINGS s !! bid = None →
  cancel_booking s bid email now = (Failure (BookingNotFound bid), s).
Proof. intros H. unfold cancel_booking. by rewrite H. Qed.

Lemma cancel_booking_mismatch s bid email now b :
  BOOKINGS s !! bid = Some b →
  passenger_email b ≠ email →
  cancel_booking s bid email now = (Failure EmailMismatch, s).
Proof.
  intros H N. unfold cancel_booking. rewrite H.
  by rewrite (proj2 (String.eqb_neq _ _) N).
Qed.

Lemma cancel_booking_already s bid email now b :
  BOOKINGS s !! bid = Some b →
  passenger_email b = email →
  status b = CANCELLED →
  cancel_booking s bid email now = (Failure AlreadyCancelled, s).
Proof.
  intros H E C. unfold cancel_booking. rewrite H.
  by rewrite (proj2 (String.eqb_eq _ _) E), C.
Qed.

Lemma cancel_booking_refunded s bid email now b :
  BOOKINGS s !! bid = Some b →
  passenger_email b = email →
  status b = CONFIRMED →
  cancel_booking s bid email now =
  (Refunded {| cn_booking_id := bid;
               refund_amount := round2 (of_cents (total_price b) * (9 # 10));
               original_amount := total_price b;
               cancellation_fee := round2 (of_cents (total_price b) * (1 # 10)) |},
   {| FLIGHTS_DB := return_seats (flight_id b) (passengers b) (FLIGHTS_DB s);
      BOOKINGS := <[bid := cancelled b now]> (BOOKINGS s);
      BOOKING_COUNTER := BOOKING_COUNTER s |}).
Proof.
  intros H E C. unfold cancel_booking. rewrite H.
  by rewrite (proj2 (String.eqb_eq _ _) E), C.
Qed.

Ltac cancel_cases s bid email :=
  let B := fresh "B" in let E := fresh "E" in let C := fresh "C" in
  let b := fresh "b" in
  destruct (BOOKINGS s !! bid) as [b|] eqn:B;
  [ destruct (decide (passenger_email b = email)) as [E|E];
    [ destruct (status b) eqn:C;
      [ rewrite (cancel_booking_refunded _ _ _ _ _ B E C)
      | rewrite (cancel_booking_already _ _ _ _ _ B E C) ]
    | rewrite (cancel_booking_mismatch _ _ _ _ _ B E) ]
  | rewrite (cancel_booking_not_found _ _ _ _ B) ].

(** An error response leaves the three globals as they were. *)
Lemma book_flight_failure_frame s fid n cabin name email now e :
  (book_flight s fid n cabin name email now).1 = Failure e →
  (book_flight s fid n cabin name email now).2 = s.
Proof. book_cases s fid n email; simpl; done. Qed.

Lemma cancel_booking_failure_frame s bid email now e :
  (cancel_booking s bid email now).1 = Failure e →
  (cancel_booking s bid email now).2 = s.
Proof. cancel_cases s bid email; simpl; done. Qed.

Lemma step_failure_frame s op e :
  (step s op).1 = Failure e → (step s op).2 = s.
Proof.
  destruct op; simpl; try done.
  - apply book_flight_failure_frame.
  - apply cancel_booking_failure_frame.
Qed.

(** ** Sequences of calls *)

Lemma exec_nil s : exec s [] = s.
Proof. reflexivity. Qed.

Lemma exec_cons s op ops : exec s (op :: ops) = exec (step s op).2 ops.
Proof.
  unfold exec. simpl. destruct (step s op) as [r s1]. simpl.
  by destruct (run s1 ops).
Qed.

Lemma exec_app s ops1 ops2 : exec s (ops1 ++ ops2) = exec (exec s ops1) ops2.
Proof.
  revert s. induction ops1 as [|op ops1 IH]; intros s; simpl; [done|].
  by rewrite !exec_cons, IH.
Qed.

Lemma run_cons s op ops :
  (run s (op :: ops)).1 = (step s op).1 :: (run (step s op).2 ops).1.
Proof.
  simpl. destruct (step s op) as [r s1]. simpl. by destruct (run s1 ops).
Qed.

(** ** Invariants of the ledger and of the seat counts *)

Lemma ledger_fresh_step s op : ledger_fresh s → ledger_fresh (step s op).2.
Proof.
  intros Hf. destruct op as [o d dt|fid n|fid n cabin name email now|bid email now|bid];
    simpl; try exact Hf.
  - book_cases s fid n email; simpl; try exact Hf.
    intros k b. simpl. rewrite lookup_insert. case_decide as Hk.
    + intros _. exists (BOOKING_COUNTER s). split; [done | lia].
    + intros Hb. destruct (Hf k b Hb) as (m & -> & Hm). exists m. split; [done | lia].
  - cancel_cases s bid email; simpl; try exact Hf.
    intros k b'. simpl. rewrite lookup_insert. case_decide as Hk.
    + intros _. subst k. exact (Hf bid b B).
    + intros Hb. exact (Hf k b' Hb).
Qed.

Lemma ledger_fresh_exec s ops : ledger_fresh s → ledger_fresh (exec s ops).
Proof.
  revert s. induction ops as [|op ops IH]; intros s Hf; [done|].
  rewrite exec_cons. apply IH. by apply ledger_fresh_step.
Qed.

(** A call whose passenger count is not negative keeps the seat counts
    and the stored passenger counts from going negative. *)
Lemma nonneg_step s op :
  counts_nonneg [op] →
  seats_nonneg s ∧ passengers_nonneg s →
  seats_nonneg (step s op).2 ∧ passengers_nonneg (step s op).2.
Proof.
  intros Hop [Hs Hp]. apply Forall_cons_1 in Hop as [Hop _].
  destruct op as [o d dt|fid n|fid n cabin name email now|bid email now|bid];
    simpl; try (split; assumption).
  - book_cases s fid n email; simpl; try (split; assumption). split.
    + intros fid' c. simpl. rewrite seats_of_take_seats.
      destruct (seats_of (FLIGHTS_DB s) fid') as [c'|] eqn:E; simpl; [|done].
      intros [= <-]. pose proof (Hs fid' c' E).
      destruct (String.eqb_spec fid' fid) as [->|N]; [|lia].
      unfold seats_of in E. rewrite F in E. simpl in E. injection E as <-. lia.
    + intros k b. simpl. rewrite lookup_insert. case_decide.
      * intros [= <-]. exact Hop.
      * apply Hp.
  - cancel_cases s bid email; simpl; try (split; assumption). split.
    + intros fid' c. simpl. rewrite seats_of_return_seats.
      destruct (seats_of (FLIGHTS_DB s) fid') as [c'|] eqn:E'; simpl; [|done].
      intros [= <-]. pose proof (Hs fid' c' E'). pose proof (Hp bid b B).
      destruct (String.eqb fid' (flight_id b)); lia.
    + intros k b'. simpl. rewrite lookup_insert. case_decide.
      * intros [= <-]. simpl. exact (Hp bid b B).
      * apply Hp.
Qed.

Lemma nonneg_exec s ops :
  counts_nonneg ops →
  seats_nonneg s ∧ passengers_nonneg s →
  seats_nonneg (exec s ops) ∧ passengers_nonneg (exec s ops).
Proof.
  revert s. induction ops as [|op ops IH]; intros s Hops Hs; [done|].
  apply Forall_cons_1 in Hops as [Hop Hops].
  rewrite exec_cons. apply IH; [exact Hops|].
  apply nonneg_step; [|exact Hs]. by apply Forall_cons_2.
Qed.

(** ** Seat conservation and the seat bounds *)

Section FromInventory.

(** The inventory the engine is started with. *)
Variable db0 : list (string * list Flight).

Lemma conserved_init : conserved db0 (init db0).
Proof.
  intros fid. simpl. rewrite confirmed_on_empty.
  destruct (seats_of db0 fid); simpl; [f_equal; lia | done].
Qed.

Lemma conserved_step s op :
  ledger_fresh s → conserved db0 s → conserved db0 (step s op).2.
Proof.
  intros Hf Hc. destruct op as [o d dt|fid n|fid n cabin name email now|bid email now|bid];
    simpl; try exact Hc.
  - book_cases s fid n email; simpl; try exact Hc.
    intros fid'. simpl.
    rewrite seats_of_take_seats, (Hc fid').
    rewrite confirmed_on_insert_fresh by (by apply ledger_fresh_next).
    unfold confirmed_weight; simpl.
    rewrite (String.eqb_sym fid fid').
    destruct (seats_of db0 fid'); simpl; [|done].
    f_equal. destruct (String.eqb fid' fid); lia.
  - cancel_cases s bid email; simpl; try exact Hc.
    intros fid'. simpl.
    rewrite seats_of_return_seats, (Hc fid').
    rewrite (confirmed_on_update fid' bid b) by exact B.
    unfold confirmed_weight; simpl. rewrite C.
    rewrite (String.eqb_sym (flight_id b) fid').
    destruct (seats_of db0 fid'); simpl; [|done].
    f_equal. destruct (String.eqb fid' (flight_id b)); lia.
Qed.

Lemma conserved_exec s ops :
  ledger_fresh s → conserved db0 s → conserved db0 (exec s ops).
Proof.
  revert s. induction ops as [|op ops IH]; intros s Hf Hc; [done|].
  rewrite exec_cons. apply IH; [by apply ledger_fresh_step | by apply conserved_step].
Qed.

(** Seat conservation holds after every sequence of calls, whatever the
    passenger counts: for each flight id, the seats now are the initial
    seats minus the passengers of the CONFIRMED bookings on it. *)
Lemma seat_conservation ops fid c0 :
  seats_of db0 fid = Some c0 →
  seats_of (FLIGHTS_DB (exec (init db0) ops)) fid =
  Some (c0 - confirmed_on fid (BOOKINGS (exec (init db0) ops))).
Proof.
  intros H0.
  pose proof (conserved_exec (init db0) ops (ledger_fresh_init db0) conserved_init) as Hc.
  by rewrite (Hc fid), H0.
Qed.

(** No flight of the initial inventory has a negative seat count. *)
Hypothesis seats0 : ∀ f, f ∈ all_flights db0 → 0 <= fl_seats f.

Lemma seats_nonneg_init : seats_nonneg (init db0).
Proof.
  intros fid c. unfold seats_of. simpl.
  destruct (find_flight fid db0) as [[r f]|] eqn:F; simpl; [|done].
  intros [= <-]. apply seats0. apply find_flight_Some in F as [(fls & Hin & Hf) _].
  apply elem_of_all_flights. by exists r, fls.
Qed.

(** With passenger counts that are not negative in every [book_flight]
    call, the seats stay within [0, initial] and the CONFIRMED bookings on
    a flight never exceed its initial seats. *)
Lemma seat_bounds_nonneg_counts ops fid c0 :
  counts_nonneg ops →
  seats_of db0 fid = Some c0 →
  let s := exec (init db0) ops in
  ∃ c, seats_of (FLIGHTS_DB s) fid = Some c ∧
       c = c0 - confirmed_on fid (BOOKINGS s) ∧
       confirmed_on fid (BOOKINGS s) <= c0 ∧
       0 <= c <= c0.
Proof.
  intros Hops H0 s.
  assert (Hinit : seats_nonneg (init db0) ∧ passengers_nonneg (init db0)).
  { split; [apply seats_nonneg_init|]. intros k b Hb. simpl in Hb.
    by rewrite lookup_empty in Hb. }
  destruct (nonneg_exec (init db0) ops Hops Hinit) as [Hs Hp]. fold s in Hs, Hp.
  pose proof (seat_conservation ops fid c0 H0) as Hc. fold s in Hc.
  pose proof (Hs fid _ Hc).
  pose proof (confirmed_on_nonneg fid (BOOKINGS s) Hp).
  eexists. split; [exact Hc|]. lia.
Qed.

End FromInventory.

(** The same for the seed of [main.py]. *)
Lemma seed_seat_bounds ops fid c0 :
  counts_nonneg ops →
  seats_of seed_flights fid = Some c0 →
  ∃ c, seats_of (FLIGHTS_DB (exec seed ops)) fid = Some c ∧
       c = c0 - confirmed_on fid (BOOKINGS (exec seed ops)) ∧
       confirmed_on fid (BOOKINGS (exec seed ops)) <= c0 ∧
       0 <= c <= c0.
Proof.
  apply (seat_bounds_nonneg_counts seed_flights).
  intros f Hf. unfold all_flights, seed_flights in Hf. simpl in Hf.
  repeat (apply elem_of_cons in Hf as [->|Hf]; [simpl; lia|]).
  inversion Hf.
Qed.

(** When the flight ids of an inventory are distinct, as in the seed,
    every flight is the one the lookup by its id finds. *)
Lemma find_in_route_complete f fls :
  NoDup (fl_id <$> fls) → f ∈ fls → find_in_route (fl_id f) fls = Some f.
Proof.
  induction fls as [|g fls IH]; simpl; intros Hnd Hin; [inversion Hin|].
  apply NoDup_cons in Hnd as [Hg Hnd].
  apply elem_of_cons in Hin as [->|Hin]; [by rewrite String.eqb_refl|].
  destruct (String.eqb_spec (fl_id g) (fl_id f)) as [E|_]; [|by apply IH].
  exfalso. apply Hg. rewrite E. apply list_elem_of_fmap. by exists f.
Qed.

Lemma find_flight_complete f db :
  NoDup (fl_id <$> all_flights db) →
  f ∈ all_flights db →
  ∃ r, find_flight (fl_id f) db = Some (r, f).
Proof.
  unfold all_flights. induction db as [|[r fls] db IH]; simpl; intros Hnd Hin;
    [inversion Hin|].
  rewrite fmap_app in Hnd. apply NoDup_app in Hnd as (Hfls & Hdisj & Hdb).
  apply elem_of_app in Hin as [Hin|Hin].
  - exists r. by rewrite (find_in_route_complete f fls Hfls Hin).
  - destruct (find_in_route (fl_id f) fls) as [g|] eqn:E.
    + exfalso. apply find_in_route_Some in E as [Hg Hid].
      apply (Hdisj (fl_id f)).
      * apply list_elem_of_fmap. by exists g.
      * apply list_elem_of_fmap. by exists f.
    + by apply IH.
Qed.


(** C1. After every sequence of calls from the seed, each flight's seats
    equal its initial seats minus the passengers of its CONFIRMED
    bookings, those never exceed the initial seats, and the seats stay in
    [0, initial]: evaluated on sequences that book a negative passenger
    count, which [book_flight] accepts.  Booking -5 passengers on JL005
    (23 seats) leaves 28 seats; booking the 28 and then cancelling the
    first booking leaves -5 seats with 28 CONFIRMED passengers. *)
Theorem seat_bounds_broken_by_negative_count :
  let book1 := Book "JL005" (-5) economy "Eve Adams" "eve@mail.com" "t0" in
  let book2 := Book "JL005" 28 economy "Eve Adams" "eve@mail.com" "t1" in
  let undo1 := Cancel "BK1000" "eve@mail.com" "t2" in
  seats_of (FLIGHTS_DB seed) "JL005" = Some 23 ∧
  seats_of (FLIGHTS_DB (exec seed [book1])) "JL005" = Some 28 ∧
  confirmed_on "JL005" (BOOKINGS (exec seed [book1])) = -5 ∧
  seats_of (FLIGHTS_DB (exec seed [book1; book2; undo1])) "JL005" = Some (-5) ∧
  confirmed_on "JL005" (BOOKINGS (exec seed [book1; book2; undo1])) = 28.
Proof. vm_compute. repeat split. Qed.

(** ** Booking *)



(** C3. [book_flight] answers InvalidEmail exactly when the email lacks
    "@" or "."; otherwise FlightNotFound exactly when no flight of the
    inventory has the id; otherwise InsufficientSeats, with the requested
    and the available count, exactly when the flight's seats are fewer
    than the passengers.  On each error the inventory, the ledger and the
    counter are unchanged. *)
Theorem book_flight_errors s fid n cabin name email now :
  let res := book_flight s fid n cabin name email now in
  (res.1 = Failure InvalidEmail ↔
     ¬ (contains "@" email = true ∧ contains "." email = true)) ∧
  (valid_email email = true →
     (res.1 = Failure (FlightNotFound fid) ↔ ¬ has_flight fid (FLIGHTS_DB s))) ∧
  (valid_email email = true →
     ∀ r flight, find_flight fid (FLIGHTS_DB s) = Some (r, flight) →
       (res.1 = Failure (InsufficientSeats n (fl_seats flight)) ↔ fl_seats flight < n) ∧
       (∀ req av, res.1 = Failure (InsufficientSeats req av) →
          req = n ∧ av = fl_seats flight ∧ fl_seats flight < n)) ∧
  (∀ e, res.1 = Failure e →
     res.2 = s ∧
     FLIGHTS_DB res.2 = FLIGHTS_DB s ∧ BOOKINGS res.2 = BOOKINGS s ∧
     BOOKING_COUNTER res.2 = BOOKING_COUNTER s).
Proof.
  intros res. subst res. split; [|split; [|split]].
  - split.
    + book_cases s fid n email; simpl; try discriminate.
      intros _ [H1 H2]. unfold valid_email in V. by rewrite H1, H2 in V.
    + intros Hno. book_cases s fid n email; simpl; try done.
      all: exfalso; apply Hno; unfold valid_email in V; by apply andb_true_iff in V.
  - intros Hv. split.
    + book_cases s fid n email; simpl; try discriminate.
      intros _. by apply find_flight_None.
    + intros Hno. apply find_flight_None in Hno.
      by rewrite (book_flight_not_found _ _ _ _ _ _ _ Hv Hno).
  - intros Hv r flight Hfl. split; [split|].
    + destruct (Z.lt_ge_cases (fl_seats flight) n) as [L|L]; [done|].
      rewrite (book_flight_booked _ _ _ _ _ _ _ _ _ Hv Hfl L). discriminate.
    + intros L. by rewrite (book_flight_insufficient _ _ _ _ _ _ _ _ _ Hv Hfl L).
    + intros req av. destruct (Z.lt_ge_cases (fl_seats flight) n) as [L|L].
      * rewrite (book_flight_insufficient _ _ _ _ _ _ _ _ _ Hv Hfl L). simpl.
        intros [= <- <-]. done.
      * rewrite (book_flight_booked _ _ _ _ _ _ _ _ _ Hv Hfl L). discriminate.
  - intros e He. apply book_flight_failure_frame in He. by rewrite He.
Qed.

(** ** Cancellation *)






(** C5. [cancel_booking] answers BookingNotFound exactly when the ledger
    has no such id; otherwise EmailMismatch exactly when the supplied
    email differs from the stored one (compared exactly, so also in
    case); otherwise AlreadyCancelled exactly when the status is
    CANCELLED, so a cancelled booking is never refunded again.  On each
    error nothing changes. *)
Theorem cancel_booking_errors s bid email now :
  let res := cancel_booking s bid email now in
  (res.1 = Failure (BookingNotFound bid) ↔ BOOKINGS s !! bid = None) ∧
  (∀ b, BOOKINGS s !! bid = Some b →
     (res.1 = Failure EmailMismatch ↔ passenger_email b ≠ email) ∧
     (passenger_email b = email →
        (res.1 = Failure AlreadyCancelled ↔ status b = CANCELLED))) ∧
  (∀ e, res.1 = Failure e → res.2 = s) ∧
  (∀ c, res.1 = Refunded c →
     ∀ email' now',
       let again := cancel_booking res.2 bid email' now' in
       (again.1 = Failure AlreadyCancelled ∨ again.1 = Failure EmailMismatch) ∧
       again.2 = res.2) ∧
  (∀ t0,
     let s1 := (book_flight seed "JL005" 2 business "John Smith" "john@email.com" t0).2 in
     cancel_booking s1 "BK1000" "wrong@email.com" now = (Failure EmailMismatch, s1) ∧
     cancel_booking s1 "BK1000" "John@email.com" now = (Failure EmailMismatch, s1)).
Proof.
  intros res. subst res. split; [|split; [|split; [|split]]].
  - cancel_cases s bid email; simpl; split; congruence.
  - intros b0 B0. cancel_cases s bid email; simpl; try discriminate.
    all: injection B0 as <-; repeat split; congruence.
  - intros e. apply cancel_booking_failure_frame.
  - intros c. cancel_cases s bid email; simpl; try discriminate.
    intros _ email' now'.
    set (s' := {| FLIGHTS_DB := _; BOOKINGS := _; BOOKING_COUNTER := _ |}).
    assert (B' : BOOKINGS s' !! bid = Some (cancelled b now))
      by apply lookup_insert_eq.
    destruct (decide (passenger_email (cancelled b now) = email')) as [E'|E'].
    + rewrite (cancel_booking_already _ _ _ _ _ B' E' eq_refl). simpl. by split; [left|].
    + rewrite (cancel_booking_mismatch _ _ _ _ _ B' E'). simpl. by split; [right|].
  - intros t0 s1. subst s1. split; reflexivity.
Qed.

(** ** Search, availability and view *)

Lemma get_route_elem k fls db :
  NoDup db.*1 → (k, fls) ∈ db → get_route k db = fls.
Proof.
  induction db as [|[k' fls'] db IH]; simpl; intros Hnd Hin; [inversion Hin|].
  apply NoDup_cons in Hnd as [Hk' Hnd].
  apply elem_of_cons in Hin as [[= -> ->]|Hin].
  - by rewrite String.eqb_refl.
  - destruct (String.eqb_spec k' k) as [->|N]; [|by apply IH].
    exfalso. apply Hk'. apply list_elem_of_fmap. by exists (k, fls).
Qed.

Lemma get_route_absent k db : k ∉ db.*1 → get_route k db = [].
Proof.
  induction db as [|[k' fls'] db IH]; simpl; intros Hk; [done|].
  apply not_elem_of_cons in Hk as [N Hk].
  destruct (String.eqb_spec k' k) as [->|_]; [done | by apply IH].
Qed.

(** C6. [search_flights] answers InvalidRoute when origin and destination
    are equal; otherwise RouteNotFound when the key origin-destination is
    absent or holds no flight; otherwise the whole list stored under the
    key, in its stored order, with the date echoed and not used as a
    filter.  It changes no state. *)
Theorem search_flights_outcomes s origin destination date :
  let key := origin +:+ "-" +:+ destination in
  let stored := get_route key (FLIGHTS_DB s) in
  (origin = destination →
     search_flights s origin destination date = Failure InvalidRoute) ∧
  (origin ≠ destination → stored = [] →
     search_flights s origin destination date =
       Failure (RouteNotFound origin destination)) ∧
  (origin ≠ destination → stored ≠ [] →
     ∃ r, search_flights s origin destination date = Flights r ∧
          sr_flights r = stored ∧ sr_date r = date ∧
          sr_count r = length stored ∧
          ∀ date', ∃ r', search_flights s origin destination date' = Flights r' ∧
                         sr_flights r' = stored ∧ sr_date r' = date') ∧
  (NoDup (FLIGHTS_DB s).*1 →
     (stored = [] ↔ key ∉ (FLIGHTS_DB s).*1 ∨ (key, []) ∈ FLIGHTS_DB s) ∧
     (∀ fls, (key, fls) ∈ FLIGHTS_DB s → stored = fls)) ∧
  (step s (Search origin destination date)).2 = s ∧
  search_flights s "NYC" "NYC" date = Failure InvalidRoute.
Proof.
  intros key stored. split; [|split; [|split; [|split; [|split]]]].
  - intros ->. unfold search_flights. by rewrite String.eqb_refl.
  - intros N Hnil. unfold search_flights.
    rewrite (proj2 (String.eqb_neq _ _) N). fold key stored. by rewrite Hnil.
  - intros N Hne.
    assert (Hs : ∀ d, search_flights s origin destination d =
                      Flights {| sr_route := origin +:+ " → " +:+ destination;
                                 sr_date := d; sr_flights := stored;
                                 sr_count := length stored |}).
    { intros d. unfold search_flights.
      rewrite (proj2 (String.eqb_neq _ _) N). fold key stored.
      by destruct stored. }
    eexists. split; [apply Hs|]. repeat split.
    intros date'. eexists. split; [apply Hs|]. done.
  - intros Hnd. split.
    + split.
      * intros Hnil. destruct (decide (key ∈ (FLIGHTS_DB s).*1)) as [Hin|Hout];
          [right | by left].
        apply list_elem_of_fmap in Hin as ([k fls] & Hk & Hin). simpl in Hk. subst k.
        pose proof (get_route_elem _ _ _ Hnd Hin) as Hg. fold stored in Hg.
        by rewrite <- Hg, Hnil in Hin.
      * intros [Hout|Hin]; [by apply get_route_absent | by apply get_route_elem].
    + intros fls Hin. by apply get_route_elem.
  - reflexivity.
  - reflexivity.
Qed.

(** The seed has a stored, non-empty list under NYC-TYO, and distinct
    route keys. *)
Lemma search_flights_outcomes_witness :
  NoDup (FLIGHTS_DB seed).*1 ∧
  ∃ r, search_flights seed "NYC" "TYO" "2025-02-15" = Flights r ∧
       (fl_id <$> sr_flights r) = ["JL005"; "AA150"] ∧
       sr_date r = "2025-02-15".
Proof.
  split; [apply (bool_decide_unpack _); vm_compute; exact I|].
  destruct (proj1 (proj2 (proj2
              (search_flights_outcomes seed "NYC" "TYO" "2025-02-15")))
              ltac:(discriminate) ltac:(discriminate))
    as (r & Hr & Hfl & Hd & _).
  exists r. split; [exact Hr|]. split; [by rewrite Hfl | exact Hd].
Defined.

(** C7. [check_flight_availability] answers InvalidPassengerCount when
    the count is outside [1, 9]; otherwise FlightNotFound when no flight
    has the id; otherwise a report with [can_book] = (seats >= count)
    and, exactly when [can_book] holds, the quote price * count, without
    cabin multiplier.  It changes no state. *)
Theorem check_flight_availability_outcomes s fid n :
  let res := check_flight_availability s fid n in
  (n < 1 ∨ 9 < n → res = Failure InvalidPassengerCount) ∧
  (1 <= n <= 9 → ¬ has_flight fid (FLIGHTS_DB s) →
     res = Failure (FlightNotFound fid)) ∧
  (1 <= n <= 9 →
     ∀ r flight, find_flight fid (FLIGHTS_DB s) = Some (r, flight) →
       ∃ a, res = Available a ∧
            (can_book a = true ↔ n <= fl_seats flight) ∧
            (can_book a = true → av_total_price a = Some (fl_price flight * n)) ∧
            (can_book a = false → av_total_price a = None) ∧
            seats_available a = fl_seats flight ∧
            passengers_requested a = n ∧
            price_per_person a = fl_price flight) ∧
  (step s (CheckAvailability fid n)).2 = s ∧
  (∃ a, check_flight_availability seed "JL005" 2 = Available a ∧
        can_book a = true ∧ av_total_price a = Some 2400).
Proof.
  intros res. subst res. unfold check_flight_availability.
  split; [|split; [|split; [|split]]].
  - intros Hn. destruct (Z.ltb_spec n 1), (Z.ltb_spec 9 n); simpl; try done; lia.
  - intros Hn Hno. apply find_flight_None in Hno. rewrite Hno.
    destruct (Z.ltb_spec n 1), (Z.ltb_spec 9 n); simpl; try done; lia.
  - intros Hn r flight F. rewrite F.
    destruct (Z.ltb_spec n 1), (Z.ltb_spec 9 n); simpl; try lia.
    eexists. split; [reflexivity|]. simpl.
    destruct (Z.leb_spec n (fl_seats flight)); repeat split; try done; lia.
  - reflexivity.
  - eexists. split; [reflexivity|]. by split.
Qed.

(** ** Booking ids and the ledger's keys *)

Lemma step_allocates s op :
  (allocated [(step s op).1] = [booking_id_of (BOOKING_COUNTER s)] ∧
   BOOKING_COUNTER (step s op).2 = BOOKING_COUNTER s + 1 ∧
   booking_id_of (BOOKING_COUNTER s) ∈ dom (BOOKINGS (step s op).2)) ∨
  (allocated [(step s op).1] = [] ∧
   BOOKING_COUNTER (step s op).2 = BOOKING_COUNTER s).
Proof.
  destruct op as [o d dt|fid n|fid n cabin name email now|bid email now|bid]; simpl.
  - right. unfold search_flights. destruct (String.eqb o d); [done|].
    by destruct (get_route _ _).
  - right. unfold check_flight_availability.
    destruct (_ || _); [done|]. by destruct (find_flight _ _) as [[??]|].
  - book_cases s fid n email; simpl; try (by right).
    left. repeat split. apply elem_of_dom. rewrite lookup_insert_eq. by eexists.
  - right. cancel_cases s bid email; simpl; done.
  - right. unfold view_booking. by destruct (BOOKINGS s !! bid).
Qed.

Lemma dom_step s op : dom (BOOKINGS s) ⊆ dom (BOOKINGS (step s op).2).
Proof.
  destruct op as [o d dt|fid n|fid n cabin name email now|bid email now|bid];
    simpl; try done.
  - book_cases s fid n email; simpl; try done.
    rewrite dom_insert_L. set_solver.
  - cancel_cases s bid email; simpl; try done.
    rewrite dom_insert_L. set_solver.
Qed.

Lemma dom_exec s ops : dom (BOOKINGS s) ⊆ dom (BOOKINGS (exec s ops)).
Proof.
  revert s. induction ops as [|op ops IH]; intros s; [done|].
  rewrite exec_cons. etrans; [apply (dom_step s op) | apply IH].
Qed.

Lemma allocated_cons r rs : allocated (r :: rs) = allocated [r] ++ allocated rs.
Proof. unfold allocated. simpl. by destruct r. Qed.

Lemma allocated_run s ops :
  let ids := allocated (run s ops).1 in
  ids = booking_id_of <$> seqZ (BOOKING_COUNTER s) (Z.of_nat (length ids)) ∧
  BOOKING_COUNTER (exec s ops) = BOOKING_COUNTER s + Z.of_nat (length ids) ∧
  (∀ k, k ∈ ids → k ∈ dom (BOOKINGS (exec s ops))).
Proof.
  revert s. induction ops as [|op ops IH]; intros s; cbn zeta.
  - simpl. split; [done|]. split; [rewrite exec_nil; lia|]. intros k Hk. inversion Hk.
  - rewrite run_cons, exec_cons, allocated_cons.
    destruct (IH (step s op).2) as (Hids & Hc & Hdom).
    set (ids := allocated (run (step s op).2 ops).1) in *.
    destruct (step_allocates s op) as [(-> & Hc1 & Hin)|(-> & Hc1)].
    + simpl. split; [|split].
      * rewrite seqZ_cons by lia. simpl. f_equal.
        rewrite Hids at 1. rewrite Hc1. do 2 f_equal; lia.
      * rewrite Hc, Hc1. lia.
      * intros k Hk. apply elem_of_cons in Hk as [->|Hk]; [|by apply Hdom].
        by apply (dom_exec _ ops).
    + simpl. rewrite <- Hc1. done.
Qed.

(** C8. Over every sequence of calls the ids handed out by the successful
    [book_flight] calls are BK1000, BK1001, ... in this order: strictly
    increasing, none given twice, whatever cancellations happen in
    between; and the key set of the ledger only grows. *)
Theorem booking_ids_monotonic db ops :
  let ids := allocated (run (init db) ops).1 in
  let s := exec (init db) ops in
  ids = booking_id_of <$> seqZ 1000 (Z.of_nat (length ids)) ∧
  BOOKING_COUNTER s = 1000 + Z.of_nat (length ids) ∧
  (∀ i j m n, (i < j)%nat →
     ids !! i = Some (booking_id_of m) → ids !! j = Some (booking_id_of n) → m < n) ∧
  NoDup ids ∧
  (∀ k, k ∈ ids → k ∈ dom (BOOKINGS s)) ∧
  (booking_id_of (BOOKING_COUNTER s) ∉ dom (BOOKINGS s)) ∧
  (∀ op, dom (BOOKINGS s) ⊆ dom (BOOKINGS (step s op).2)) ∧
  (∀ ops', dom (BOOKINGS s) ⊆ dom (BOOKINGS (exec s ops'))).
Proof.
  intros ids s.
  destruct (allocated_run (init db) ops) as (Hids & Hc & Hdom).
  fold ids in Hids, Hc, Hdom. fold s in Hc, Hdom. simpl in Hids, Hc.
  assert (Hnth : ∀ i m, ids !! i = Some (booking_id_of m) → m = 1000 + Z.of_nat i).
  { intros i m Hi. rewrite Hids in Hi.
    rewrite list_lookup_fmap in Hi.
    destruct (seqZ 1000 (Z.of_nat (length ids)) !! i) as [x|] eqn:E; [|done].
    assert (x = m) as -> by (apply booking_id_of_inj; simpl in Hi; congruence).
    apply lookup_seqZ in E. lia. }
  split; [exact Hids|]. split; [exact Hc|]. split; [|split; [|split; [|split; [|split]]]].
  - intros i j m n Hij Hi Hj. apply Hnth in Hi, Hj. lia.
  - rewrite Hids. apply NoDup_fmap_2; [|apply NoDup_seqZ].
    intros x y. apply booking_id_of_inj.
  - exact Hdom.
  - apply not_elem_of_dom. apply ledger_fresh_next.
    apply ledger_fresh_exec, ledger_fresh_init.
  - intros op. apply dom_step.
  - intros ops'. apply dom_exec.
Qed.

(** C9. Every booking that [book_flight] stores has a passenger count in
    [1, 9]: evaluated on calls outside that range, which [book_flight]
    accepts, while [check_flight_availability] refuses the same counts.
    Booking -5, 0 or 12 passengers from the seed each stores a CONFIRMED
    booking with that count. *)
Theorem book_flight_stores_count_outside_range :
  (∀ now, ∃ b s',
     book_flight seed "JL005" (-5) economy "Eve Adams" "eve@mail.com" now
       = (Booked b, s') ∧
     BOOKINGS s' !! "BK1000" = Some b ∧
     passengers b = -5 ∧ status b = CONFIRMED ∧
     total_price b = -600000 ∧
     seats_of (FLIGHTS_DB s') "JL005" = Some 28) ∧
  (∀ now, ∃ b s',
     book_flight seed "JL005" 0 economy "Eve Adams" "eve@mail.com" now
       = (Booked b, s') ∧
     BOOKINGS s' !! "BK1000" = Some b ∧
     passengers b = 0 ∧ status b = CONFIRMED) ∧
  (∀ now, ∃ b s',
     book_flight seed "BA001" 12 economy "Eve Adams" "eve@mail.com" now
       = (Booked b, s') ∧
     BOOKINGS s' !! "BK1000" = Some b ∧
     passengers b = 12 ∧ status b = CONFIRMED) ∧
  check_flight_availability seed "JL005" (-5) = Failure InvalidPassengerCount ∧
  check_flight_availability seed "JL005" 0 = Failure InvalidPassengerCount ∧
  check_flight_availability seed "BA001" 12 = Failure InvalidPassengerCount.
Proof.
  split; [|split; [|split]].
  - intros now. eexists _, _. split; [reflexivity|]. repeat split.
  - intros now. eexists _, _. split; [reflexivity|]. repeat split.
  - intros now. eexists _, _. split; [reflexivity|]. repeat split.
  - repeat split.
Qed.

(** ** Frozen prices *)

Lemma total_price_step s op k b :
  ledger_fresh s →
  BOOKINGS s !! k = Some b →
  ∃ b', BOOKINGS (step s op).2 !! k = Some b' ∧ total_price b' = total_price b.
Proof.
  intros Hf Hk.
  destruct op as [o d dt|fid n|fid n cabin name email now|bid email now|bid];
    simpl; eauto.
  - book_cases s fid n email; simpl; eauto.
    exists b. split; [|done]. rewrite lookup_insert_ne; [done|].
    intros Heq. pose proof (ledger_fresh_next s Hf) as Hn. congruence.
  - cancel_cases s bid email; simpl; eauto.
    destruct (decide (bid = k)) as [->|N].
    + exists (cancelled b0 now). rewrite lookup_insert_eq. split; [done|].
      simpl. congruence.
    + exists b. by rewrite lookup_insert_ne.
Qed.

Lemma total_price_exec s ops k b :
  ledger_fresh s →
  BOOKINGS s !! k = Some b →
  ∃ b', BOOKINGS (exec s ops) !! k = Some b' ∧ total_price b' = total_price b.
Proof.
  revert s b. induction ops as [|op ops IH]; intros s b Hf Hk; [by exists b|].
  rewrite exec_cons.
  destruct (total_price_step s op k b Hf Hk) as (b1 & Hk1 & <-).
  apply IH; [by apply ledger_fresh_step | exact Hk1].
Qed.

(** C10. The [total_price] of a booking is fixed when it is made: no call
    changes it (a cancellation computes refund and fee from the stored
    value and leaves it), and replacing the inventory, so also changing
    the flight's fare, later leaves it as it was through every further
    sequence of calls. *)
Theorem total_price_frozen db ops1 db' ops2 k b :
  let s1 := exec (init db) ops1 in
  BOOKINGS s1 !! k = Some b →
  (∀ op, ∃ b', BOOKINGS (step s1 op).2 !! k = Some b' ∧
               total_price b' = total_price b) ∧
  BOOKINGS (set_inventory db' s1) !! k = Some b ∧
  (∃ b', BOOKINGS (exec (set_inventory db' s1) ops2) !! k = Some b' ∧
         total_price b' = total_price b) ∧
  (∀ email now c s',
     cancel_booking (set_inventory db' s1) k email now = (Refunded c, s') →
     original_amount c = total_price b ∧
     refund_amount c = round2 (of_cents (total_price b) * (9 # 10)) ∧
     cancellation_fee c = round2 (of_cents (total_price b) * (1 # 10)) ∧
     (total_price <$> BOOKINGS s' !! k) = Some (total_price b)).
Proof.
  intros s1 Hk.
  assert (Hf : ledger_fresh s1) by apply ledger_fresh_exec, ledger_fresh_init.
  assert (Hf' : ledger_fresh (set_inventory db' s1)) by exact Hf.
  split; [|split; [|split]].
  - intros op. by apply total_price_step.
  - exact Hk.
  - by apply total_price_exec.
  - intros email now c s'.
    assert (Hk' : BOOKINGS (set_inventory db' s1) !! k = Some b) by exact Hk.
    revert Hk'. generalize (set_inventory db' s1). intros s Hk'.
    cancel_cases s k email; try discriminate.
    intros [= <- <-]. simpl. rewrite lookup_insert_eq. simpl.
    assert (b0 = b) as -> by congruence. done.
Qed.

Lemma total_price_frozen_witness :
  let book := Book "JL005" 2 business "John Smith" "john@email.com" "t0" in
  let s1 := exec seed [book] in
  let s2 := exec (set_inventory (reprice "JL005" 5000 (FLIGHTS_DB s1)) s1)
              [CheckAvailability "JL005" 1; Cancel "BK1000" "john@email.com" "t1"] in
  (fl_price ∘ snd <$> find_flight "JL005" (reprice "JL005" 5000 (FLIGHTS_DB s1)))
    = Some 5000 ∧
  ∃ b', BOOKINGS s2 !! "BK1000" = Some b' ∧ total_price b' = 600000.
Proof.
  intros book s1 s2. split; [reflexivity|].
  apply (proj1 (proj2 (proj2
    (total_price_frozen seed_flights [book]
       (reprice "JL005" 5000 (FLIGHTS_DB s1))
       [CheckAvailability "JL005" 1; Cancel "BK1000" "john@email.com" "t1"]
       "BK1000"
       (make_booking "BK1000" "JL005" "NYC-TYO" 2 business "John Smith"
          "john@email.com" (inject_Z (1200 * 2) * (5 # 2))
          (mkFlight "JL005" 1200 "13:00" "16:00+1" 23) "t0")
       eq_refl)))).
Defined.

(** ** The mock's copies of the tools *)

(** On the success path the mock's [book_flight] allocates the same id,
    stores the same price and takes the same seats as the one of
    [main.py]. *)
Lemma mock_book_flight_booked s fid n cabin name email r flight :
  find_flight fid (Mock.FLIGHTS_DB s) = Some (r, flight) →
  n <= fl_seats flight →
  ∃ b s',
    Mock.book_flight s fid n cabin name email = (Mock.Booked b, s') ∧
    Mock.booking_id b = booking_id_of (Mock.BOOKING_COUNTER s) ∧
    Mock.BOOKING_COUNTER s' = Mock.BOOKING_COUNTER s + 1 ∧
    Mock.BOOKINGS s' !! Mock.booking_id b = Some b ∧
    Mock.status b = CONFIRMED ∧ Mock.passengers b = n ∧
    Mock.total_price b = fare_cents (fl_price flight * n) cabin ∧
    Mock.FLIGHTS_DB s' = take_seats fid n (Mock.FLIGHTS_DB s).
Proof.
  intros F L. unfold Mock.book_flight. rewrite F.
  rewrite (proj2 (Z.ltb_ge _ _) L). cbn zeta.
  eexists _, _. split; [reflexivity|]. simpl. repeat split.
  - apply lookup_insert_eq.
  - apply round2_fare.
Qed.

Lemma mock_book_flight_scenario :
  ∃ b s',
    Mock.book_flight Mock.seed "JL005" 2 business "Sarah Chen" "sarah.chen@email.com"
      = (Mock.Booked b, s') ∧
    Mock.booking_id b = "BK1000" ∧ Mock.total_price b = 600000 ∧
    seats_of (Mock.FLIGHTS_DB s') "JL005" = Some 21.
Proof. eexists _, _. split; [reflexivity|]. repeat split. Qed.

(** The mock's [book_flight] never looks at the email, and its
    insufficient-seats error carries no counts. *)
Lemma mock_book_flight_no_email_check s fid n cabin name email email' :
  Mock.book_flight s fid n cabin name email = Mock.book_flight s fid n cabin name email'.
Proof. reflexivity. Qed.

Lemma mock_book_flight_bad_email :
  ∃ b s',
    Mock.book_flight Mock.seed "JL005" 2 business "Sarah Chen" "no email"
      = (Mock.Booked b, s') ∧
    valid_email "no email" = false.
Proof. eexists _, _. split; reflexivity. Qed.

(** The mock's [search_flights] has no origin = destination case: such a
    query falls through to the lookup of the route key. *)
Lemma mock_search_flights_same_city date :
  Mock.search_flights Mock.seed "NYC" "NYC" date =
  Mock.Failure (Mock.RouteNotFound "NYC" "NYC").
Proof. reflexivity. Qed.

(** The mock's [check_flight_availability] reports on any count. *)
Lemma mock_check_flight_availability_no_range_check :
  (∃ a, Mock.check_flight_availability Mock.seed "JL005" 12 = Mock.Available a ∧
        Mock.can_book a = true ∧ Mock.av_total_price a = Some 14400) ∧
  (∃ a, Mock.check_flight_availability Mock.seed "JL005" (-5) = Mock.Available a ∧
        Mock.can_book a = true ∧ Mock.av_total_price a = Some (-6000)).
Proof. split; eexists; (split; [reflexivity|]); by split. Qed.

(** * Further properties of the engine *)

(** ** What the calls keep of the inventory *)

Lemma shape_take_seats fid n db : shape (take_seats fid n db) = shape db.
Proof.
  assert (Hr : ∀ fls, map fl_static (take_in_route fid n fls) = map fl_static fls).
  { induction fls as [|g fls IH]; simpl; [done|].
    destruct (String.eqb (fl_id g) fid); simpl; [done | by rewrite IH]. }
  unfold shape. induction db as [|[r fls] db IH]; simpl; [done|].
  destruct (find_in_route fid fls); simpl; [by rewrite Hr | by rewrite IH].
Qed.

Lemma shape_return_seats fid n db : shape (return_seats fid n db) = shape db.
Proof.
  unfold shape, return_seats. rewrite map_map. apply map_ext.
  intros [r fls]. simpl. f_equal. rewrite map_map. apply map_ext.
  intros g. unfold give_back. by destruct (String.eqb (fl_id g) fid).
Qed.

Lemma shape_step s op : shape (FLIGHTS_DB (step s op).2) = shape (FLIGHTS_DB s).
Proof.
  destruct op as [o d dt|fid n|fid n cabin name email now|bid email now|bid];
    simpl; try done.
  - book_cases s fid n email; simpl; try done. apply shape_take_seats.
  - cancel_cases s bid email; simpl; try done. apply shape_return_seats.
Qed.

Lemma cons_inv {A} (x y : A) (l l' : list A) :
  x :: l = y :: l' → x = y ∧ l = l'.
Proof. intros H. by injection H. Qed.

Lemma shape_lookup fid db db' :
  shape db = shape db' →
  match find_flight fid db, find_flight fid db' with
  | Some (r, f), Some (r', f') => r = r' ∧ fl_static f = fl_static f'
  | None, None => True
  | _, _ => False
  end.
Proof.
  assert (Hr : ∀ fls fls', map fl_static fls = map fl_static fls' →
            match find_in_route fid fls, find_in_route fid fls' with
            | Some f, Some f' => fl_static f = fl_static f'
            | None, None => True
            | _, _ => False
            end).
  { induction fls as [|g fls IH]; intros [|g' fls']; simpl; try done.
    intros [Hg Hfls]%cons_inv.
    assert (fl_id g = fl_id g') as -> by (unfold fl_static in Hg; congruence).
    destruct (String.eqb (fl_id g') fid); [exact Hg | by apply IH]. }
  unfold shape. revert db'.
  induction db as [|[r fls] db IH]; intros [|[r' fls'] db']; simpl; try done.
  intros Heq. injection Heq as <- Hfls Hdb. specialize (Hr _ _ Hfls).
  destruct (find_in_route fid fls), (find_in_route fid fls'); try done.
  by apply IH.
Qed.

Lemma shape_exec s ops : shape (FLIGHTS_DB (exec s ops)) = shape (FLIGHTS_DB s).
Proof.
  revert s. induction ops as [|op ops IH]; intros s; [done|].
  rewrite exec_cons, IH. apply shape_step.
Qed.

Lemma find_flight_has_flight fid db r f :
  find_flight fid db = Some (r, f) → has_flight fid db.
Proof.
  intros F. apply find_flight_Some in F as [(fls & Hin & Hf) Hid].
  exists f. split; [|exact Hid]. apply elem_of_all_flights. by exists r, fls.
Qed.

Lemma has_flight_shape fid db db' :
  shape db = shape db' → has_flight fid db → has_flight fid db'.
Proof.
  intros Hsh Hhas. pose proof (shape_lookup fid _ _ Hsh) as H.
  destruct (find_flight fid db) as [[r f]|] eqn:F.
  - destruct (find_flight fid db') as [[r' f']|] eqn:F'; [|done].
    by apply find_flight_has_flight in F'.
  - by apply find_flight_None in F.
Qed.

(** X1. Over every sequence of calls the inventory keeps its routes, in
    order, and under each route the same flights in order, each with the
    id, price, departure and arrival it had: only seat counts change.  In
    particular a lookup by id finds a flight after the calls exactly when
    it did before, under the same route. *)
Theorem inventory_shape_kept s ops :
  shape (FLIGHTS_DB (exec s ops)) = shape (FLIGHTS_DB s) ∧
  (FLIGHTS_DB (exec s ops)).*1 = (FLIGHTS_DB s).*1 ∧
  (fl_id <$> all_flights (FLIGHTS_DB (exec s ops))) =
    (fl_id <$> all_flights (FLIGHTS_DB s)) ∧
  (∀ fid, has_flight fid (FLIGHTS_DB (exec s ops)) ↔ has_flight fid (FLIGHTS_DB s)) ∧
  (∀ fid r f, find_flight fid (FLIGHTS_DB s) = Some (r, f) →
     ∃ f', find_flight fid (FLIGHTS_DB (exec s ops)) = Some (r, f') ∧
           fl_id f' = fl_id f ∧ fl_price f' = fl_price f ∧
           fl_departure f' = fl_departure f ∧ fl_arrival f' = fl_arrival f).
Proof.
  pose proof (shape_exec s ops) as Hshape.
  assert (Hkeys : ∀ db db', shape db = shape db' → db.*1 = db'.*1).
  { unfold shape. induction db as [|[r fls] db IH]; intros [|[r' fls'] db'];
      simpl; try done. intros Heq. injection Heq as <- _ Hdb. f_equal. by apply IH. }
  assert (Hids : ∀ db db', shape db = shape db' →
            (fl_id <$> all_flights db) = (fl_id <$> all_flights db')).
  { unfold shape, all_flights.
    induction db as [|[r fls] db IH]; intros [|[r' fls'] db']; simpl; try done.
    intros Heq. injection Heq as _ Hfls Hdb. rewrite !fmap_app. f_equal; [|by apply IH].
    clear -Hfls. revert fls' Hfls.
    induction fls as [|g fls IH]; intros [|g' fls']; simpl; try done.
    intros [Hg Hfls]%cons_inv. f_equal; [|by apply IH].
    unfold fl_static in Hg. congruence. }
  split; [exact Hshape|]. split; [by apply Hkeys|]. split; [by apply Hids|]. split.
  - intros fid. split; apply has_flight_shape; [exact Hshape | by symmetry].
  - intros fid r f F. pose proof (shape_lookup fid _ _ Hshape) as H.
    rewrite F in H.
    destruct (find_flight fid (FLIGHTS_DB (exec s ops))) as [[r' f']|]; [|done].
    destruct H as [-> Hst]. exists f'. split; [done|].
    unfold fl_static in Hst. by injection Hst as -> -> -> ->.
Qed.

Lemma inventory_shape_kept_witness :
  ∃ f', find_flight "JL005"
          (FLIGHTS_DB (exec seed [Book "JL005" 2 business "John Smith" "john@email.com" "t0"]))
        = Some ("NYC-TYO", f') ∧ fl_price f' = 1200.
Proof.
  destruct (proj2 (proj2 (proj2 (proj2
             (inventory_shape_kept seed
                [Book "JL005" 2 business "John Smith" "john@email.com" "t0"]))))
             "JL005" "NYC-TYO" (mkFlight "JL005" 1200 "13:00" "16:00+1" 23) eq_refl)
    as (f' & Hf & _ & Hp & _).
  exists f'. split; [exact Hf | exact Hp].
Defined.


(** ** What the calls keep of the ledger *)







Lemma booking_kept_step s op k b :
  ledger_fresh s →
  BOOKINGS s !! k = Some b →
  ∃ b', BOOKINGS (step s op).2 !! k = Some b' ∧
        same_booking_data b b' ∧
        (status b = CANCELLED → b' = b) ∧
        (status b' = CONFIRMED → b' = b).
Proof.
  intros Hf Hk.
  assert (Hsame : ∃ b', BOOKINGS s !! k = Some b' ∧ same_booking_data b b' ∧
                        (status b = CANCELLED → b' = b) ∧
                        (status b' = CONFIRMED → b' = b)).
  { exists b. split; [exact Hk|]. by repeat split. }
  destruct op as [o d dt|fid n|fid n cabin name email now|bid email now|bid];
    simpl; try exact Hsame.
  - book_cases s fid n email; simpl; try exact Hsame.
    rewrite lookup_insert_ne; [exact Hsame|].
    intros Heq. pose proof (ledger_fresh_next s Hf) as Hn. congruence.
  - cancel_cases s bid email; simpl; try exact Hsame.
    destruct (decide (bid = k)) as [->|N]; [|by rewrite lookup_insert_ne].
    assert (b0 = b) as -> by congruence.
    exists (cancelled b now). rewrite lookup_insert_eq. split; [done|].
    split; [by repeat split|]. split; [congruence | discriminate].
Qed.

(** X4. A booking is never removed and never rewritten: after any further
    calls it is still in the ledger with the same id, flight, route,
    passengers, cabin, name, email, price, times and booking date; the
    only change is CONFIRMED to CANCELLED, once: a CANCELLED booking, with
    its cancellation date, stays exactly as it is, and a booking that is
    still CONFIRMED is the record that was stored. *)
Theorem booking_kept db ops1 ops2 k b :
  BOOKINGS (exec (init db) ops1) !! k = Some b →
  ∃ b', BOOKINGS (exec (init db) (ops1 ++ ops2)) !! k = Some b' ∧
        same_booking_data b b' ∧
        (status b = CANCELLED → b' = b) ∧
        (status b' = CONFIRMED → b' = b).
Proof.
  rewrite exec_app.
  assert (Hf : ledger_fresh (exec (init db) ops1))
    by apply ledger_fresh_exec, ledger_fresh_init.
  revert Hf. generalize (exec (init db) ops1) as s. intros s. revert s b.
  induction ops2 as [|op ops IH]; intros s b Hf Hk.
  - exists b. split; [exact Hk|]. by repeat split.
  - rewrite exec_cons.
    destruct (booking_kept_step s op k b Hf Hk) as (b1 & Hk1 & Hd1 & Hc1 & Hk1').
    destruct (IH (step s op).2 b1 (ledger_fresh_step s op Hf) Hk1)
      as (b2 & Hk2 & Hd2 & Hc2 & Hk2').
    exists b2. split; [exact Hk2|]. split; [|split].
    + unfold same_booking_data in *. intuition congruence.
    + intros Hc. specialize (Hc1 Hc). subst b1. by apply Hc2.
    + intros Hc. specialize (Hk2' Hc). subst b2. by apply Hk1'.
Qed.

Lemma booking_kept_witness :
  let book := Book "JL005" 2 business "John Smith" "john@email.com" "t0" in
  ∃ b b', BOOKINGS (exec seed [book]) !! "BK1000" = Some b ∧
          BOOKINGS (exec seed ([book] ++ [Cancel "BK1000" "john@email.com" "t1";
                                          Book "JL005" 1 economy "Ann Lee" "ann@mail.org" "t2"]))
            !! "BK1000" = Some b' ∧
          passengers b' = passengers b ∧ total_price b' = total_price b.
Proof.
  intros book. eexists.
  destruct (booking_kept seed_flights [book]
              [Cancel "BK1000" "john@email.com" "t1";
               Book "JL005" 1 economy "Ann Lee" "ann@mail.org" "t2"]
              "BK1000" _ eq_refl)
    as (b' & Hb' & Hd & _).
  exists b'. split; [reflexivity|]. split; [exact Hb'|].
  unfold same_booking_data in Hd. tauto.
Defined.

(** ** Viewing *)

(** X5. [view_booking] answers with the stored record exactly when the id
    is in the ledger and with BookingNotFound otherwise.  Right after a
    successful [book_flight] it shows the booking that call returned;
    right after a successful [cancel_booking] it shows that booking as
    CANCELLED, with the cancellation date and the unchanged price. *)
Theorem view_booking_shows_ledger s :
  (∀ bid, view_booking s bid = Failure (BookingNotFound bid) ↔ BOOKINGS s !! bid = None) ∧
  (∀ bid b, view_booking s bid = Viewed b ↔ BOOKINGS s !! bid = Some b) ∧
  (∀ fid n cabin name email now b s',
     book_flight s fid n cabin name email now = (Booked b, s') →
     view_booking s' (booking_id b) = Viewed b) ∧
  (∀ bid email now c s' b,
     cancel_booking s bid email now = (Refunded c, s') →
     BOOKINGS s !! bid = Some b →
     view_booking s' bid = Viewed (cancelled b now) ∧
     status (cancelled b now) = CANCELLED ∧
     cancellation_date (cancelled b now) = Some now ∧
     total_price (cancelled b now) = total_price b).
Proof.
  unfold view_booking. split; [|split; [|split]].
  - intros bid. destruct (BOOKINGS s !! bid); split; congruence.
  - intros bid b. destruct (BOOKINGS s !! bid); split; congruence.
  - intros fid n cabin name email now b s'.
    book_cases s fid n email; try discriminate.
    intros [= <- <-]. simpl. by rewrite lookup_insert_eq.
  - intros bid email now c s' b.
    cancel_cases s bid email; try discriminate.
    intros [= <- <-] [= <-]. simpl. by rewrite lookup_insert_eq.
Qed.

(** ** Booking and cancelling back *)









(** ** Availability check and booking *)



(** ** The closing summary of the script *)

Lemma active_fold_comm (b1 b2 : Booking) (y : nat) :
  match status b1 with
  | CONFIRMED => S match status b2 with CONFIRMED => S y | CANCELLED => y end
  | CANCELLED => match status b2 with CONFIRMED => S y | CANCELLED => y end
  end =
  match status b2 with
  | CONFIRMED => S match status b1 with CONFIRMED => S y | CANCELLED => y end
  | CANCELLED => match status b1 with CONFIRMED => S y | CANCELLED => y end
  end.
Proof. by destruct (status b1), (status b2). Qed.

Lemma active_insert_fresh s k b m c :
  BOOKINGS s !! k = None →
  active_bookings {| FLIGHTS_DB := m; BOOKINGS := <[k := b]> (BOOKINGS s);
                     BOOKING_COUNTER := c |} =
  match status b with
  | CONFIRMED => S (active_bookings s)
  | CANCELLED => active_bookings s
  end.
Proof.
  intros Hk. unfold active_bookings. simpl.
  rewrite map_fold_insert_L; [done | intros; apply active_fold_comm | exact Hk].
Qed.

Lemma active_cancel s k b now m c :
  BOOKINGS s !! k = Some b →
  status b = CONFIRMED →
  S (active_bookings {| FLIGHTS_DB := m;
                        BOOKINGS := <[k := cancelled b now]> (BOOKINGS s);
                        BOOKING_COUNTER := c |}) = active_bookings s.
Proof.
  intros Hk Hc. unfold active_bookings. simpl.
  rewrite <- insert_delete_eq.
  rewrite map_fold_insert_L;
    [| intros; apply active_fold_comm | apply lookup_delete_eq].
  rewrite (map_fold_delete_L _ _ k b (BOOKINGS s));
    [| intros; apply active_fold_comm | exact Hk].
  simpl. by rewrite Hc.
Qed.

Lemma summary_step s op :
  ledger_fresh s →
  total_bookings (step s op).2 =
    (total_bookings s + length (allocated [(step s op).1]))%nat ∧
  (active_bookings (step s op).2 + refunds [(step s op).1])%nat =
    (active_bookings s + length (allocated [(step s op).1]))%nat.
Proof.
  intros Hf. unfold total_bookings, refunds, allocated.
  destruct op as [o d dt|fid n|fid n cabin name email now|bid email now|bid]; simpl.
  - unfold search_flights. destruct (String.eqb o d); [simpl; lia|].
    destruct (get_route _ _); simpl; lia.
  - unfold check_flight_availability. destruct (_ || _); [simpl; lia|].
    destruct (find_flight _ _) as [[??]|]; simpl; lia.
  - book_cases s fid n email; simpl; try lia.
    rewrite map_size_insert_None by (by apply ledger_fresh_next).
    rewrite active_insert_fresh by (by apply ledger_fresh_next). simpl. lia.
  - cancel_cases s bid email; simpl; try lia.
    rewrite map_size_insert_Some by (by eexists).
    pose proof (active_cancel s bid b now
                  (return_seats (flight_id b) (passengers b) (FLIGHTS_DB s))
                  (BOOKING_COUNTER s) B C) as Ha.
    lia.
  - unfold view_booking. destruct (BOOKINGS s !! bid); simpl; lia.
Qed.

Lemma summary_run s ops :
  ledger_fresh s →
  total_bookings (exec s ops) =
    (total_bookings s + length (allocated (run s ops).1))%nat ∧
  (active_bookings (exec s ops) + refunds (run s ops).1)%nat =
    (active_bookings s + length (allocated (run s ops).1))%nat.
Proof.
  revert s. induction ops as [|op ops IH]; intros s Hf.
  - simpl. rewrite exec_nil. unfold refunds. simpl. lia.
  - rewrite run_cons, exec_cons, allocated_cons, length_app.
    destruct (summary_step s op Hf) as [Ht Ha].
    destruct (IH _ (ledger_fresh_step s op Hf)) as [Ht' Ha'].
    assert (Hr : ∀ r rs, refunds (r :: rs) = (refunds [r] + refunds rs)%nat).
    { intros r rs. unfold refunds. rewrite !filter_cons.
      destruct (decide (is_refund r = true)); simpl; lia. }
    rewrite Hr. lia.
Qed.

(** X9. The two figures printed at the end of the script are tied to the
    calls made: the number of bookings in the ledger is the number of
    successful [book_flight] calls, which is the counter minus 1000, and
    the number of CONFIRMED bookings is that number minus the number of
    successful cancellations. *)
Theorem summary_counts db ops :
  let s := exec (init db) ops in
  let rs := (run (init db) ops).1 in
  total_bookings s = length (allocated rs) ∧
  Z.of_nat (total_bookings s) = BOOKING_COUNTER s - 1000 ∧
  (active_bookings s + refunds rs)%nat = total_bookings s ∧
  (refunds rs ≤ total_bookings s)%nat.
Proof.
  intros s rs.
  destruct (summary_run (init db) ops (ledger_fresh_init db)) as [Ht Ha].
  destruct (allocated_run (init db) ops) as (_ & Hc & _).
  fold s in Ht, Ha, Hc. fold rs in Ht, Ha, Hc.
  change (total_bookings (init db)) with (size (∅ : gmap string Booking)) in Ht.
  change (active_bookings (init db))
    with (map_fold (λ (_ : string) (b : Booking) acc,
                      match status b with CONFIRMED => S acc | CANCELLED => acc end)
                   0%nat (∅ : gmap string Booking)) in Ha.
  rewrite map_size_empty in Ht. rewrite map_fold_empty in Ha.
  simpl in Hc. lia.
Qed.

(** ** Seats, for every passenger count and for counts that are not negative *)

(** X10. After every sequence of calls, with any passenger counts, the
    seats found under a flight id are the seats the initial inventory had
    under it minus the passengers of the CONFIRMED bookings on that id;
    an id the initial inventory did not have is still not found. *)
Theorem seats_conserved_always db ops fid :
  let s := exec (init db) ops in
  seats_of (FLIGHTS_DB s) fid =
    (λ c0, c0 - confirmed_on fid (BOOKINGS s)) <$> seats_of db fid ∧
  (seats_of db fid = None → find_flight fid (FLIGHTS_DB s) = None).
Proof.
  intros s.
  pose proof (conserved_exec db (init db) ops (ledger_fresh_init db)
                (conserved_init db) fid) as Hc.
  fold s in Hc. split; [exact Hc|].
  intros Hnone. rewrite Hnone in Hc. unfold seats_of in Hc.
  by destruct (find_flight fid (FLIGHTS_DB s)).
Qed.



(** * The mock's tools against the tools of [main.py] *)

(** X12. On a query with different origin and destination the mock's
    [search_flights] gives the answer of [main.py]'s on the same
    inventory.  On a query with equal origin and destination, where
    [main.py] refuses, the mock answers from whatever is stored under the
    key, and reports no flights when nothing is. *)
Theorem mock_search_flights_agrees s origin destination date :
  (origin ≠ destination →
     erase_response (search_flights s origin destination date) =
     Some (Mock.search_flights (erase_state s) origin destination date)) ∧
  (search_flights s origin origin date = Failure InvalidRoute ∧
   (get_route (origin +:+ "-" +:+ origin) (FLIGHTS_DB s) = [] →
      Mock.search_flights (erase_state s) origin origin date =
      Mock.Failure (Mock.RouteNotFound origin origin)) ∧
   (get_route (origin +:+ "-" +:+ origin) (FLIGHTS_DB s) ≠ [] →
      ∃ r, Mock.search_flights (erase_state s) origin origin date = Mock.Flights r ∧
           sr_flights r = get_route (origin +:+ "-" +:+ origin) (FLIGHTS_DB s))).
Proof.
  split; [|split; [|split]].
  - intros N. unfold search_flights, Mock.search_flights.
    rewrite (proj2 (String.eqb_neq _ _) N). simpl.
    by destruct (get_route _ _).
  - unfold search_flights. by rewrite String.eqb_refl.
  - intros Hnil. unfold Mock.search_flights. simpl. by rewrite Hnil.
  - intros Hne. unfold Mock.search_flights. simpl.
    destruct (get_route _ _) as [|f fls] eqn:E; [done|]. by eexists.
Qed.

(** X13. For a passenger count from 1 to 9 the mock's
    [check_flight_availability] gives the report of [main.py]'s, less
    departure and arrival; for any other count, which [main.py] refuses,
    the mock still reports on the flight when it exists. *)
Theorem mock_check_flight_availability_agrees s fid n :
  (1 <= n <= 9 →
     erase_response (check_flight_availability s fid n) =
     Some (Mock.check_flight_availability (erase_state s) fid n)) ∧
  (n < 1 ∨ 9 < n →
     check_flight_availability s fid n = Failure InvalidPassengerCount ∧
     ∀ r flight, find_flight fid (FLIGHTS_DB s) = Some (r, flight) →
       ∃ a, Mock.check_flight_availability (erase_state s) fid n = Mock.Available a ∧
            (Mock.can_book a = true ↔ n <= fl_seats flight) ∧
            Mock.passengers_requested a = n).
Proof.
  unfold check_flight_availability, Mock.check_flight_availability. simpl. split.
  - intros Hn. destruct (Z.ltb_spec n 1), (Z.ltb_spec 9 n); simpl; try lia.
    by destruct (find_flight fid (FLIGHTS_DB s)) as [[r flight]|].
  - intros Hn. split.
    + destruct (Z.ltb_spec n 1), (Z.ltb_spec 9 n); simpl; try done; lia.
    + intros r flight ->. eexists. split; [reflexivity|]. simpl.
      split; [|done]. by destruct (Z.leb_spec n (fl_seats flight)); split; try lia.
Qed.

(** X14. For a well-formed email the mock's [book_flight] does on the
    erased state what [main.py]'s does: the same outcome (the booking less
    email, route, times and dates; the same error, less the counts) and
    the same new inventory, ledger and counter.  For an email [main.py]
    refuses, the mock does what both do for a well-formed one. *)
Theorem mock_book_flight_agrees s fid n cabin name email now :
  (valid_email email = true →
     erase_response (book_flight s fid n cabin name email now).1 =
       Some (Mock.book_flight (erase_state s) fid n cabin name email).1 ∧
     erase_state (book_flight s fid n cabin name email now).2 =
       (Mock.book_flight (erase_state s) fid n cabin name email).2) ∧
  (valid_email email = false →
     book_flight s fid n cabin name email now = (Failure InvalidEmail, s) ∧
     ∀ email', Mock.book_flight (erase_state s) fid n cabin name email =
               Mock.book_flight (erase_state s) fid n cabin name email').
Proof.
  split.
  - intros V. unfold Mock.book_flight. simpl.
    book_cases s fid n email; try discriminate; simpl.
    + by rewrite (proj2 (Z.ltb_lt _ _) L).
    + rewrite (proj2 (Z.ltb_ge _ _) L). simpl. split; [done|].
      unfold erase_state. simpl. f_equal. by rewrite fmap_insert.
    + done.
  - intros V. split; [by apply book_flight_invalid_email | done].
Qed.

Lemma mock_book_flight_agrees_witness :
  erase_response
    (book_flight seed "JL005" 2 business "Sarah Chen" "sarah.chen@email.com" "t0").1 =
  Some (Mock.book_flight (erase_state seed) "JL005" 2 business "Sarah Chen"
          "sarah.chen@email.com").1.
Proof.
  apply (proj1 (mock_book_flight_agrees seed "JL005" 2 business "Sarah Chen"
                  "sarah.chen@email.com" "t0")).
  reflexivity.
Defined.

Lemma mock_search_flights_agrees_witness :
  erase_response (search_flights seed "LAX" "TYO" "2025-03-01") =
  Some (Mock.search_flights (erase_state seed) "LAX" "TYO" "2025-03-01").
Proof.
  apply (proj1 (mock_search_flights_agrees seed "LAX" "TYO" "2025-03-01")).
  discriminate.
Defined.

Lemma mock_check_flight_availability_agrees_witness :
  erase_response (check_flight_availability seed "JL062" 3) =
  Some (Mock.check_flight_availability (erase_state seed) "JL062" 3).
Proof.
  apply (proj1 (mock_check_flight_availability_agrees seed "JL062" 3)). lia.
Defined.

(** * The mock's message router *)

(** ** Substrings and flight codes *)

Lemma append_cons (c : ascii) (s t : string) :
  String c s +:+ t = String c (s +:+ t).
Proof. reflexivity. Qed.


Lemma prefix_spec (p s : string) :
  String.prefix p s = true ↔ ∃ post, s = p +:+ post.
Proof.
  revert s. induction p as [|a p IH]; intros [|b s]; simpl.
  - split; [intros _; by exists "" | done].
  - split; [intros _; by exists (String b s) | done].
  - split; [done | intros [post H]; discriminate].
  - destruct (ascii_dec a b) as [->|N].
    + rewrite IH. split; intros [post H]; exists post.
      * by rewrite append_cons, H.
      * rewrite append_cons in H. congruence.
    + split; [done|]. intros [post H]. rewrite append_cons in H. congruence.
Qed.

Lemma occurs_in_nil (needle : string) :
  occurs_in needle "" = String.prefix needle "".
Proof. unfold occurs_in. apply orb_false_r. Qed.

Lemma occurs_in_cons (needle : string) (c : ascii) (hay : string) :
  occurs_in needle (String c hay) =
  String.prefix needle (String c hay) || occurs_in needle hay.
Proof. reflexivity. Qed.

Lemma occurs_in_spec (needle hay : string) :
  occurs_in needle hay = true ↔ ∃ pre post, hay = pre +:+ needle +:+ post.
Proof.
  induction hay as [|c hay IH].
  - rewrite occurs_in_nil, prefix_spec. split.
    + intros [post H]. by exists "", post.
    + intros (pre & post & H). destruct pre; [by exists post | discriminate].
  - rewrite occurs_in_cons, orb_true_iff, prefix_spec, IH. split.
    + intros [[post H]|(pre & post & H)].
      * by exists "", post.
      * exists (String c pre), post. by rewrite append_cons, H.
    + intros (pre & post & H). destruct pre as [|c' pre].
      * left. by exists post.
      * right. exists pre, post. rewrite append_cons in H. congruence.
Qed.







(** ** What the router issues *)

Lemma city_pair_known msg_lower o d :
  city_pair msg_lower = Some (o, d) →
  (o, d) = ("NYC", "TYO")%string ∨ (o, d) = ("NYC", "LON")%string ∨
  (o, d) = ("LAX", "TYO")%string.
Proof.
  unfold city_pair.
  destruct (_ || _); [intros [= <- <-]; by left|].
  destruct (occurs_in "nyc to london" msg_lower); [intros [= <- <-]; right; by left|].
  destruct (_ || _); [intros [= <- <-]; right; by right | discriminate].
Qed.

Lemma check_count_range msg_lower : 1 <= check_count msg_lower <= 3.
Proof.
  unfold check_count.
  repeat (match goal with |- context [if ?b then _ else _] => destruct b end); lia.
Qed.

Lemma book_count_range msg_lower : 2 <= book_count msg_lower <= 3.
Proof.
  unfold book_count.
  repeat (match goal with |- context [if ?b then _ else _] => destruct b end); lia.
Qed.

Lemma get_route_shape k db db' :
  shape db = shape db' →
  map fl_static (get_route k db) = map fl_static (get_route k db').
Proof.
  unfold shape. revert db'.
  induction db as [|[r fls] db IH]; intros [|[r' fls'] db']; simpl; try done.
  intros [Hhd Htl]%cons_inv. injection Hhd as <- Hfls.
  destruct (String.eqb r k); [exact Hfls | by apply IH].
Qed.

Lemma mock_book_flight_keeps_shape s fid n cabin name email :
  shape (Mock.FLIGHTS_DB (Mock.book_flight s fid n cabin name email).2) =
  shape (Mock.FLIGHTS_DB s).
Proof.
  unfold Mock.book_flight.
  destruct (find_flight fid (Mock.FLIGHTS_DB s)) as [[r flight]|]; [|done].
  destruct (fl_seats flight <? n); [done|]. simpl. apply shape_take_seats.
Qed.

Lemma mock_check_in_range s fid n :
  1 <= n <= 9 →
  erase_response (check_flight_availability s fid n) =
  Some (Mock.check_flight_availability (erase_state s) fid n).
Proof.
  intros Hn. unfold check_flight_availability, Mock.check_flight_availability. simpl.
  destruct (Z.ltb_spec n 1), (Z.ltb_spec 9 n); simpl; try lia.
  by destruct (find_flight fid (FLIGHTS_DB s)) as [[r flight]|].
Qed.

Section RouterProperties.

Variable name_of : string → option string.
Variable email_of : string → option string.

Lemma route_message_search_inv self msg o d date why self' :
  process_message name_of email_of self msg = (CallSearch o d date why, self') →
  search_words (lower msg) = true ∧
  city_pair (lower msg) = Some (o, d) ∧
  date = (if occurs_in "march" (lower msg) then "2025-03-01" else "2025-02-15")%string ∧
  self' = {| last_flight_searched := last_flight_searched self;
             last_route := Some (o +:+ "-" +:+ d) |}.
Proof.
  unfold process_message.
  destruct (search_words (lower msg)).
  - destruct (city_pair (lower msg)) as [[o' d']|]; [|discriminate].
    intros [= <- <- <- _ <-]. done.
  - destruct (_ && _); [discriminate|].
    destruct (occurs_in "book" (lower msg)); discriminate.
Qed.

Lemma route_message_check_inv self msg fid n why self' :
  process_message name_of email_of self msg = (CallCheck fid n why, self') →
  search_words (lower msg) = false ∧
  occurs_in "check" (lower msg) = true ∧
  fid = match find_code (upper msg) with Some code => code | None => "JL005"%string end ∧
  n = check_count (lower msg) ∧
  self' = {| last_flight_searched := Some fid; last_route := last_route self |}.
Proof.
  unfold process_message.
  destruct (search_words (lower msg)).
  - destruct (city_pair (lower msg)) as [[o' d']|]; discriminate.
  - destruct (occurs_in "check" (lower msg)); simpl.
    + destruct (_ || _).
      * intros [= <- <- _ <-]. done.
      * destruct (occurs_in "book" (lower msg)); discriminate.
    + destruct (occurs_in "book" (lower msg)); discriminate.
Qed.

Lemma route_message_book_inv self msg fid n cabin name email why self' :
  process_message name_of email_of self msg = (CallBook fid n cabin name email why, self') →
  search_words (lower msg) = false ∧
  occurs_in "book" (lower msg) = true ∧
  fid = match find_code (upper msg) with
        | Some code => code
        | None => last_or_default (last_flight_searched self)
        end ∧
  n = book_count (lower msg) ∧ cabin = book_cabin (lower msg) ∧
  self' = self.
Proof.
  unfold process_message.
  destruct (search_words (lower msg)).
  - destruct (city_pair (lower msg)) as [[o' d']|]; discriminate.
  - destruct (_ && _); [discriminate|].
    destruct (occurs_in "book" (lower msg)); [|discriminate].
    intros [= <- <- <- _ _ _ <-]. done.
Qed.

(** X16. Every search the router issues is for one of the three routes of
    the mock's seed, with different origin and destination and one of two
    dates, and on any inventory that has the routes and flights of that
    seed, whatever its seat counts, it finds the two flights of the
    route: the router never causes a route error. *)
Theorem router_search_finds_flights self msg o d date why self' s :
  process_message name_of email_of self msg = (CallSearch o d date why, self') →
  shape (Mock.FLIGHTS_DB s) = shape Mock.seed_flights →
  o ≠ d ∧
  (date = "2025-03-01" ∨ date = "2025-02-15") ∧
  last_route self' = Some (o +:+ "-" +:+ d) ∧
  last_flight_searched self' = last_flight_searched self ∧
  ∃ r, Mock.search_flights s o d date = Mock.Flights r ∧
       sr_count r = 2%nat ∧ sr_date r = date ∧
       (fl_id <$> sr_flights r) =
       (fl_id <$> get_route (o +:+ "-" +:+ d) Mock.seed_flights).
Proof.
  intros Hm Hsh.
  destruct (route_message_search_inv _ _ _ _ _ _ _ Hm) as (_ & Hpair & Hdate & ->).
  pose proof (get_route_shape (o +:+ "-" +:+ d) _ _ Hsh) as Hr.
  assert (Hids : ∀ l l', map fl_static l = map fl_static l' → (fl_id <$> l) = (fl_id <$> l')).
  { induction l as [|g l IH]; intros [|g' l']; simpl; try done.
    intros [Hg Hl]%cons_inv. f_equal; [|by apply IH].
    unfold fl_static in Hg. congruence. }
  split; [|split; [|split; [done|split; [done|]]]].
  - apply city_pair_known in Hpair as [[= -> ->]|[[= -> ->]|[= -> ->]]]; discriminate.
  - rewrite Hdate. destruct (occurs_in "march" (lower msg)); [by left | by right].
  - unfold Mock.search_flights.
    destruct (get_route (o +:+ "-" +:+ d) (Mock.FLIGHTS_DB s)) as [|f1 [|f2 [|f3 l]]] eqn:E;
      apply city_pair_known in Hpair as [[= -> ->]|[[= -> ->]|[= -> ->]]];
      try discriminate Hr.
    all: eexists; split; [reflexivity|]; split; [reflexivity|]; split; [reflexivity|].
    all: simpl sr_flights; by apply Hids.
Qed.


(** X17. Every availability check the router issues asks for 1, 2 or 3
    passengers and every booking for 2 or 3, so the checks pass the 1 to 9
    range test of [main.py], on which the mock's check and [main.py]'s
    give the same report; a check stores its flight id in the router and
    a booking leaves the router as it was. *)
Theorem router_counts_in_range self msg :
  (∀ fid n why self',
     process_message name_of email_of self msg = (CallCheck fid n why, self') →
     1 <= n <= 3 ∧
     last_flight_searched self' = Some fid ∧ last_route self' = last_route self ∧
     ∀ s, check_flight_availability s fid n ≠ Failure InvalidPassengerCount ∧
          erase_response (check_flight_availability s fid n) =
          Some (Mock.check_flight_availability (erase_state s) fid n)) ∧
  (∀ fid n cabin name email why self',
     process_message name_of email_of self msg = (CallBook fid n cabin name email why, self') →
     2 <= n <= 3 ∧ self' = self ∧
     name = default "John Doe"%string (name_of msg) ∧
     email = default "user@email.com"%string (email_of msg)).
Proof.
  split.
  - intros fid n why self' Hm.
    destruct (route_message_check_inv _ _ _ _ _ _ Hm) as (_ & _ & _ & -> & ->).
    pose proof (check_count_range (lower msg)) as Hn.
    split; [exact Hn|]. split; [done|]. split; [done|]. intros s. split.
    + unfold check_flight_availability.
      destruct (Z.ltb_spec (check_count (lower msg)) 1),
               (Z.ltb_spec 9 (check_count (lower msg))); simpl; try lia.
      by destruct (find_flight fid (FLIGHTS_DB s)) as [[??]|].
    + apply mock_check_in_range. lia.
  - intros fid n cabin name email why self'. unfold process_message.
    destruct (search_words (lower msg));
      [destruct (city_pair (lower msg)) as [[??]|]; discriminate|].
    destruct (_ && _); [discriminate|].
    destruct (occurs_in "book" (lower msg)); [|discriminate].
    intros [= _ <- _ <- <- _ <-]. split; [apply book_count_range | done].
Qed.




End RouterProperties.

Lemma router_search_finds_flights_witness :
  ∃ r, Mock.search_flights
         (Mock.book_flight Mock.seed "JL005" 2 business "Sarah Chen" "sarah.chen@email.com").2
         "NYC" "TYO" "2025-02-15" = Mock.Flights r ∧
       sr_count r = 2%nat.
Proof.
  destruct (router_search_finds_flights (λ _, None) (λ _, None) new_mock_claude
              "I want to fly from NYC to Tokyo on February 15th"
              "NYC" "TYO" "2025-02-15" _ _
              (Mock.book_flight Mock.seed "JL005" 2 business "Sarah Chen"
                 "sarah.chen@email.com").2
              eq_refl (mock_book_flight_keeps_shape _ _ _ _ _ _))
    as (_ & _ & _ & _ & r & Hr & Hc & _).
  exists r. split; [exact Hr | exact Hc].
Defined.



(** * The assistant loop *)

Lemma run_app s ops1 ops2 :
  (run s (ops1 ++ ops2)).1 = (run s ops1).1 ++ (run (exec s ops1) ops2).1.
Proof.
  revert s. induction ops1 as [|op ops1 IH]; intros s; [done|].
  rewrite <- app_comm_cons, !run_cons, exec_cons, IH. done.
Qed.

Lemma run_tools_cons s c cs :
  run_tools s (c :: cs) =
  (ToolResult (tc_id c) (step s (tc_op c)).1 :: (run_tools (step s (tc_op c)).2 cs).1,
   (run_tools (step s (tc_op c)).2 cs).2).
Proof.
  simpl. destruct (step s (tc_op c)) as [r s1]. simpl.
  by destruct (run_tools s1 cs).
Qed.

Lemma run_tools_spec s calls :
  (run_tools s calls).2 = exec s (tc_op <$> calls) ∧
  results_of (run_tools s calls).1 = (run s (tc_op <$> calls)).1 ∧
  (tc_id <$> calls) =
    omap (λ m, match m with ToolResult i _ => Some i | _ => None end)
         (run_tools s calls).1 ∧
  replies (run_tools s calls).1 = 0%nat ∧
  Forall (λ m, from_loop m = true) (run_tools s calls).1 ∧
  (calls ≠ [] → ∃ before i r, (run_tools s calls).1 = before ++ [ToolResult i r]).
Proof.
  revert s. induction calls as [|c cs IH]; intros s.
  - simpl. repeat split; [constructor | done].
  - rewrite run_tools_cons, fmap_cons, run_cons, exec_cons. simpl.
    destruct (IH (step s (tc_op c)).2) as (H1 & H2 & H3 & H4 & H5 & H6).
    split; [exact H1|]. split; [unfold results_of in *; simpl; by rewrite H2|].
    split; [f_equal; exact H3|]. split; [exact H4|]. split; [by constructor|].
    intros _. destruct cs as [|c' cs].
    + by exists [], (tc_id c), (step s (tc_op c)).1.
    + destruct (H6 ltac:(done)) as (before & i & r & ->).
      by exists (ToolResult (tc_id c) (step s (tc_op c)).1 :: before), i, r.
Qed.

Lemma replies_app ms1 ms2 : replies (ms1 ++ ms2) = (replies ms1 + replies ms2)%nat.
Proof. unfold replies. by rewrite filter_app, length_app. Qed.

Lemma results_of_app ms1 ms2 :
  results_of (ms1 ++ ms2) = results_of ms1 ++ results_of ms2.
Proof. unfold results_of. apply omap_app. Qed.

Section AssistantProperties.

Variable invoke : list Message → Reply.

Lemma assistant_loop_S k s h :
  assistant_loop invoke (S k) s h =
  match rp_tool_calls (invoke h) with
  | [] => (rp_content (invoke h), h ++ [AssistantMsg (rp_content (invoke h))], s)
  | calls =>
      assistant_loop invoke k (run_tools s calls).2
        ((h ++ [AssistantMsg (rp_content (invoke h))]) ++ (run_tools s calls).1)
  end.
Proof.
  cbn [assistant_loop]. destruct (rp_tool_calls (invoke h)) as [|c cs]; [done|].
  by destruct (run_tools s (c :: cs)).
Qed.

(** What the loop has done when it returns, for any number of iterations
    left: it has appended replies and tool results, the state is the one
    the executed tool calls lead to, and it either returns the content of
    a reply without tool calls or has used up its iterations. *)
Lemma assistant_loop_spec k s h :
  ∃ added ops,
    (assistant_loop invoke k s h).1.2 = h ++ added ∧
    (assistant_loop invoke k s h).2 = exec s ops ∧
    results_of added = (run s ops).1 ∧
    Forall (λ m, from_loop m = true) added ∧
    (replies added ≤ length ops + 1)%nat ∧
    ((∃ before, added = before ++ [AssistantMsg (assistant_loop invoke k s h).1.1] ∧
                rp_tool_calls (invoke (h ++ before)) = [] ∧
                rp_content (invoke (h ++ before)) = (assistant_loop invoke k s h).1.1 ∧
                (1 ≤ replies added ≤ k)%nat) ∨
     ((assistant_loop invoke k s h).1.1 = apology ∧ replies added = k ∧
      (k ≤ length ops)%nat ∧
      (k ≠ 0%nat → ∃ before i r, added = before ++ [ToolResult i r]))).
Proof.
  revert s h. induction k as [|k IH]; intros s h.
  - exists [], []. simpl. rewrite app_nil_r.
    repeat split; [constructor | unfold replies; simpl; lia |].
    right. by repeat split.
  - rewrite assistant_loop_S. destruct (rp_tool_calls (invoke h)) as [|c cs] eqn:Hcalls.
    + exists [AssistantMsg (rp_content (invoke h))], []. simpl.
      repeat split; [by repeat constructor | unfold replies; simpl; lia |].
      left. exists []. rewrite app_nil_r. repeat split; try done.
      all: unfold replies; simpl; lia.
    + cbn zeta.
      destruct (run_tools_spec s (c :: cs)) as (H1 & H2 & _ & H4 & H5 & H6).
      set (results := (run_tools s (c :: cs)).1) in *.
      set (s1 := (run_tools s (c :: cs)).2) in *.
      destruct (IH s1 ((h ++ [AssistantMsg (rp_content (invoke h))]) ++ results))
        as (added & ops & Hh & Hs & Hres & Hall & Hlen & Hend).
      set (out := assistant_loop invoke k s1 _) in *.
      exists ([AssistantMsg (rp_content (invoke h))] ++ results ++ added),
             ((tc_op <$> (c :: cs)) ++ ops).
      split; [by rewrite Hh, <- !app_assoc|].
      split; [by rewrite Hs, H1, exec_app|].
      split.
      { rewrite !results_of_app, run_app, H2, <- H1, Hres. done. }
      split.
      { apply Forall_app; split; [by repeat constructor|].
        apply Forall_app; by split. }
      assert (Hrep : replies ([AssistantMsg (rp_content (invoke h))] ++ results ++ added)
                     = S (replies added)).
      { rewrite !replies_app, H4. unfold replies at 1. simpl. lia. }
      rewrite Hrep, length_app, length_fmap. simpl length.
      split; [lia|].
      destruct Hend as [(before & Hadd & Hnone & Hcont & Hk)|(Hap & Hk & Hops & Hlast)].
      * left. exists ([AssistantMsg (rp_content (invoke h))] ++ results ++ before).
        split; [by rewrite Hadd, <- !app_assoc|].
        rewrite <- !app_assoc in Hnone, Hcont.
        split; [exact Hnone|]. split; [exact Hcont | lia].
      * right. split; [exact Hap|]. split; [lia|]. split; [lia|]. intros _.
        destruct k as [|k'].
        -- assert (added = []) as ->.
           { destruct added as [|m added]; [done|]. exfalso.
             subst out. simpl in Hh.
             apply (f_equal length) in Hh. rewrite !length_app in Hh. simpl in Hh. lia. }
           destruct (H6 ltac:(done)) as (before & i & r & ->).
           exists (AssistantMsg (rp_content (invoke h)) :: before), i, r.
           by rewrite app_nil_r.
        -- destruct (Hlast ltac:(done)) as (before & i & r & ->).
           exists ([AssistantMsg (rp_content (invoke h))] ++ results ++ before), i, r.
           by rewrite <- !app_assoc.
Qed.

End AssistantProperties.

Section AssistantTheorems.

Variable invoke : list Message → Reply.

(** The conversation the loop starts from. *)
Lemma run_booking_assistant_unfold s msg h :
  run_booking_assistant invoke s msg h =
  assistant_loop invoke 10 s
    ((match h with [] => [SystemMsg system_prompt] | _ => h end) ++ [UserMsg msg]).
Proof. reflexivity. Qed.



(** X22. The conversation is only appended to: what was passed in stays
    at the front, followed by the user message, and everything added
    after it is a model reply or a tool result.  The system prompt is
    put in front exactly when the conversation passed in is empty. *)
Theorem assistant_history_is_appended s msg h :
  let out := run_booking_assistant invoke s msg h in
  (h = [] →
     ∃ added, out.1.2 = [SystemMsg system_prompt; UserMsg msg] ++ added ∧
              Forall (λ m, from_loop m = true) added) ∧
  (h ≠ [] →
     ∃ added, out.1.2 = h ++ [UserMsg msg] ++ added ∧
              Forall (λ m, from_loop m = true) added) ∧
  h `prefix_of` out.1.2 ∧
  (length h + 2 ≤ length out.1.2)%nat.
Proof.
  intros out. subst out. rewrite run_booking_assistant_unfold.
  set (h0 := match h with [] => [SystemMsg system_prompt] | _ => h end).
  destruct (assistant_loop_spec invoke 10 s (h0 ++ [UserMsg msg]))
    as (added & ops & Hh & _ & _ & Hall & _ & Hend).
  assert (Hne : added ≠ []).
  { destruct Hend as [(before & -> & _)|(_ & _ & _ & Hlast)].
    - by destruct before.
    - destruct (Hlast ltac:(done)) as (before & i & r & ->). by destruct before. }
  rewrite Hh. split; [|split; [|split]].
  - intros ->. exists added. by split.
  - intros Hh0. exists added. split; [|exact Hall].
    subst h0. destruct h; [done|]. by rewrite <- app_assoc.
  - subst h0. destruct h as [|m h]; [apply prefix_nil|].
    rewrite <- app_assoc. by apply prefix_app_r.
  - rewrite !length_app. simpl.
    assert (length added ≠ 0)%nat by (by destruct added).
    subst h0. destruct h; simpl; lia.
Qed.


End AssistantTheorems.

